(** * ndrop2exel: the table reconciliation and number normalisation core

    A shallow embedding of [app/app.py]: [convert_swedish_number],
    [fix_swedish_numbers], [merge_fragmented_tables] and
    [extract_summary_data], together with the parts of the Python
    builtins ([re.match], [str.count], [str.replace], [str.split],
    [float]) and of pandas ([DataFrame.empty], [pd.concat], column
    selection and assignment) that these four functions call.

    Modelling conventions.
    - A Python [str] is a [string]; one [ascii] stands for one code point
      below 256.  On that range the only decimal digits are ['0'..'9'].
    - A Python exception is a value [Raise e] of the [result] type; code
      that cannot raise still lives in [result] when it calls code that
      can, so that "never raises" is a theorem and not a typing artefact.
    - A Python float is kept by the decimal value it was read from
      ([number]), infinite when that value is out of the range of a
      double; the rounding to 53 bits is not modelled.  [NaN] is pandas'
      missing-value marker.
    - The dtype of a column is not a function of its cells: what the
      code reads of it ([dtype == 'object'], and the pandas option
      [infer_string] that decides the dtype of new text columns) is an
      argument of the functions that read it. *)

From Stdlib Require Import String Ascii List Bool Arith ZArith QArith Lia.
From Stdlib Require Import DecimalString DecimalNat.
Import ListNotations.
Local Close Scope Q_scope.
Local Open Scope string_scope.
Local Open Scope list_scope.
Local Open Scope nat_scope.

(** ** Exceptions *)

Inductive exn : Type :=
| ValueError
| IndexError
| KeyError
| AttributeError
| InvalidIndexError.

Inductive result (A : Type) : Type :=
| Ok (a : A)
| Raise (e : exn).

Arguments Ok {A} a.
Arguments Raise {A} e.

Definition bind {A B : Type} (m : result A) (k : A -> result B) : result B :=
  match m with
  | Ok a => k a
  | Raise e => Raise e
  end.

Notation "x <- m ;; k" := (bind m (fun x => k))
  (at level 61, m at next level, right associativity).

(** [for x in xs: st = body(st, x)] with an exception aborting the loop. *)
Fixpoint for_each {S A : Type} (body : S -> A -> result S) (xs : list A) (st : S)
  : result S :=
  match xs with
  | [] => Ok st
  | x :: rest => st' <- body st x ;; for_each body rest st'
  end.

(** [xs[i]]: IndexError outside the list. *)
Definition index {A : Type} (xs : list A) (i : nat) : result A :=
  match nth_error xs i with
  | Some x => Ok x
  | None => Raise IndexError
  end.

(** ** Cell values

    A [float].  A finite one is held as the decimal value it was read
    from: [Finite q] stands for the double nearest to [q].  The rounding to
    53 bits is not carried out, so nothing here tells two decimals apart
    or together by their rounded values; the overflow to infinity is. *)

Inductive number : Type :=
| Finite (q : Q)
| Infinity (negative : bool)
| NaN.

Inductive cell : Type :=
| CStr (s : string)
| CNum (x : number)
| CNone.

(** From this magnitude on a decimal text reads as infinity: half way
    between the largest double and [2^1024]. *)
Definition overflow_bound : Z := (2 ^ 1024 - 2 ^ 970)%Z.

(** [m * 10^e], sign applied: infinite from [overflow_bound] on, and a
    reduced fraction below it. *)
Definition decimal (negative : bool) (m : N) (e : Z) : number :=
  let z := if negative then Z.opp (Z.of_N m) else Z.of_N m in
  let overflows :=
    if (0 <=? e)%Z
    then (overflow_bound <=? Z.of_N m * 10 ^ e)%Z
    else (overflow_bound * 10 ^ (- e) <=? Z.of_N m)%Z in
  if overflows then Infinity negative
  else Finite (Qred (if (0 <=? e)%Z
                     then Qmake (z * 10 ^ e) 1
                     else Qmake z (Z.to_pos (10 ^ (- e))))).

Definition integer (z : Z) : number := Finite (Qmake z 1).

(** ** String primitives *)

Definition is_digit (c : ascii) : bool :=
  let n := nat_of_ascii c in (48 <=? n) && (n <=? 57).

Definition comma : ascii := ",".
Definition period : ascii := ".".

(** [s.count(c)] for a one-character [c]. *)
Fixpoint count (c : ascii) (s : string) : nat :=
  match s with
  | EmptyString => 0
  | String a r => if Ascii.eqb a c then S (count c r) else count c r
  end.

(** [s.replace(a, b)] for one-character [a] and [b]. *)
Fixpoint replace (a b : ascii) (s : string) : string :=
  match s with
  | EmptyString => EmptyString
  | String c r => String (if Ascii.eqb c a then b else c) (replace a b r)
  end.

(** [s.split(sep)] for a one-character [sep]: never the empty list. *)
Fixpoint split (sep : ascii) (s : string) : list string :=
  match s with
  | EmptyString => [EmptyString]
  | String c r =>
      if Ascii.eqb c sep then EmptyString :: split sep r
      else match split sep r with
           | p :: ps => String c p :: ps
           | [] => [String c EmptyString]
           end
  end.

Fixpoint skip_digits (s : string) : string :=
  match s with
  | String c r => if is_digit c then skip_digits r else s
  | EmptyString => s
  end.

(** [re.match(r'^\d+[,\.]\d+', s)] as a truth value.  [\d+] is greedy and
    a separator is no digit, so the first run of digits is taken whole. *)
Definition re_match_number (s : string) : bool :=
  match s with
  | String d r =>
      is_digit d &&
      match skip_digits r with
      | String sep (String d' _) =>
          (Ascii.eqb sep comma || Ascii.eqb sep period) && is_digit d'
      | _ => false
      end
  | EmptyString => false
  end.

(** [needle in hay]. *)
Fixpoint contains (needle hay : string) : bool :=
  String.prefix needle hay ||
  match hay with
  | String _ r => contains needle r
  | EmptyString => false
  end.

(** ** The builtin [float] on a [str]

    CPython: the text has its non-ASCII white space turned into blanks,
    underscores are accepted between digits only and dropped, white space
    is stripped at both ends, and what is left must be, in full,
    [[+-]? (digits [. digits?]? | . digits) ([eE] [+-]? digits)?]
    or a signed [inf], [infinity] or [nan] in any letter case. *)

Definition nel : ascii := ascii_of_nat 133.
Definition nbsp : ascii := ascii_of_nat 160.

Definition to_ascii_space (c : ascii) : ascii :=
  if Ascii.eqb c nel || Ascii.eqb c nbsp then " "%char else c.

Definition is_space (c : ascii) : bool :=
  let n := nat_of_ascii c in ((9 <=? n) && (n <=? 13)) || (n =? 32).

Definition lower (c : ascii) : ascii :=
  let n := nat_of_ascii c in
  if (65 <=? n) && (n <=? 90) then ascii_of_nat (n + 32) else c.

Fixpoint span (p : ascii -> bool) (l : list ascii) : list ascii * list ascii :=
  match l with
  | c :: r => if p c then let '(a, b) := span p r in (c :: a, b) else ([], l)
  | [] => ([], [])
  end.

Fixpoint drop_while (p : ascii -> bool) (l : list ascii) : list ascii :=
  match l with
  | c :: r => if p c then drop_while p r else l
  | [] => []
  end.

(** Underscores: each one directly after a digit and directly before one. *)
Fixpoint underscores_ok (prev : ascii) (l : list ascii) : bool :=
  match l with
  | [] => negb (Ascii.eqb prev "_")
  | c :: r =>
      (if Ascii.eqb c "_" then is_digit prev
       else negb (Ascii.eqb prev "_") || is_digit c)
      && underscores_ok c r
  end.

Definition digit_value (c : ascii) : N := N.of_nat (nat_of_ascii c - 48).

Definition digits_value (ds : list ascii) : N :=
  fold_left (fun acc c => (acc * 10 + digit_value c)%N) ds 0%N.

Definition parse_sign (l : list ascii) : bool * list ascii :=
  match l with
  | "-"%char :: r => (true, r)
  | "+"%char :: r => (false, r)
  | _ => (false, l)
  end.

(** The exponent part: [None] when the text does not end as a number. *)
Definition parse_exponent (l : list ascii) : option Z :=
  match l with
  | [] => Some 0%Z
  | c :: r =>
      if Ascii.eqb (lower c) "e" then
        let '(neg, r') := parse_sign r in
        match span is_digit r' with
        | ((_ :: _) as ds, []) =>
            let e := Z.of_N (digits_value ds) in
            Some (if neg then Z.opp e else e)
        | _ => None
        end
      else None
  end.

Definition parse_special (neg : bool) (l : list ascii) : option number :=
  let w := string_of_list_ascii (map lower l) in
  if String.eqb w "inf" || String.eqb w "infinity" then Some (Infinity neg)
  else if String.eqb w "nan" then Some NaN
  else None.

Definition parse_decimal (neg : bool) (l : list ascii) : option number :=
  let '(int_part, r1) := span is_digit l in
  let '(frac_part, r2) :=
    match r1 with
    | "."%char :: r => span is_digit r
    | _ => ([], r1)
    end in
  match int_part ++ frac_part with
  | [] => None
  | ds =>
      match parse_exponent r2 with
      | Some e =>
          Some (decimal neg (digits_value ds) (e - Z.of_nat (length frac_part)))
      | None => None
      end
  end.

Definition py_float (s : string) : result number :=
  let l := map to_ascii_space (list_ascii_of_string s) in
  if existsb (Ascii.eqb "_") l && negb (underscores_ok zero l)
  then Raise ValueError
  else
    let l := filter (fun c => negb (Ascii.eqb c "_")) l in
    let l := drop_while is_space l in
    let l := rev (drop_while is_space (rev l)) in
    let '(neg, body) := parse_sign l in
    match parse_decimal neg body with
    | Some x => Ok x
    | None =>
        match parse_special neg body with
        | Some x => Ok x
        | None => Raise ValueError
        end
    end.

(** [try: return float(text) except ValueError: return fallback]. *)
Definition float_or (text : string) (fallback : string) : result cell :=
  match py_float text with
  | Ok x => Ok (CNum x)
  | Raise ValueError => Ok (CStr fallback)
  | Raise e => Raise e
  end.

(** ** [convert_swedish_number] *)

Definition convert_swedish_number (value : cell) : result cell :=
  match value with
  | CNum _ | CNone => Ok value
  | CStr value =>
      if re_match_number value then
        let comma_count := count comma value in
        let dot_count := count period value in
        if (comma_count =? 1) && (dot_count =? 0) then
          float_or (replace comma period value) value
        else if (comma_count =? 1) && (dot_count =? 1) then
          let value := replace comma period value in
          let parts := split period value in
          value <-
            (if (length parts =? 3)
             then
               p1 <- index parts 1 ;;
               if String.length p1 =? 1
               then
                 p0 <- index parts 0 ;;
                 p2 <- index parts 2 ;;
                 Ok (p0 ++ String period p2)%string
               else Ok value
             else Ok value) ;;
          float_or value value
        else Ok (CStr value)
      else Ok (CStr value)
  end.

(** The text the two-separator branch hands to [float], in closed form:
    comma to period, then the one-character middle part dropped when the
    text has exactly three parts. *)
Definition rewrite_two_separators (value : string) : string :=
  let value' := replace comma period value in
  match split period value' with
  | [p0; p1; p2] => if String.length p1 =? 1 then p0 ++ String period p2 else value'
  | _ => value'
  end.

(** [convert_swedish_number] as a function on cells, for use where it is
    known not to raise. *)
Definition normalize_cell (value : cell) : cell :=
  match convert_swedish_number value with
  | Ok v => v
  | Raise _ => value
  end.

(** ** Data frames

    A frame is its column labels, left to right, and its rows, top to
    bottom; a row holds one cell per label.  The row index is positional
    throughout ([ignore_index=True], fresh frames), so it is not stored. *)

Record DataFrame : Type := mkFrame {
  columns : list string;
  rows : list (list cell)
}.

Definition missing : cell := CNum NaN.

(** [pd.DataFrame()]. *)
Definition new_frame : DataFrame := mkFrame [] [].

(** [df.empty]: some axis has length zero. *)
Definition empty (df : DataFrame) : bool :=
  (length (columns df) =? 0) || (length (rows df) =? 0).

(** [list(a.columns) == list(b.columns)]. *)
Fixpoint labels_eqb (a b : list string) : bool :=
  match a, b with
  | [], [] => true
  | x :: a', y :: b' => String.eqb x y && labels_eqb a' b'
  | _, _ => false
  end.

Definition mem (c : string) (l : list string) : bool := existsb (String.eqb c) l.

(** Positions at which a label occurs. *)
Fixpoint positions_from (i : nat) (c : string) (l : list string) : list nat :=
  match l with
  | [] => []
  | x :: r =>
      if String.eqb x c then i :: positions_from (S i) c r
      else positions_from (S i) c r
  end.

Definition positions (c : string) (l : list string) : list nat :=
  positions_from 0 c l.

(** [Index.is_unique]. *)
Fixpoint is_unique (l : list string) : bool :=
  match l with
  | [] => true
  | x :: r => negb (mem x r) && is_unique r
  end.

(** Labels in order of first appearance. *)
Fixpoint unique_onto (seen l : list string) : list string :=
  match l with
  | [] => seen
  | x :: r => unique_onto (if mem x seen then seen else seen ++ [x]) r
  end.

(** The column axis of [pd.concat([a, b])]: the common labels when both
    frames have the same, else the union in order of first appearance. *)
Definition union_indexes (a b : list string) : list string :=
  if labels_eqb a b then a else unique_onto [] (a ++ b).

(** One row re-laid under [new] labels: a cell follows its label, a label
    the row does not have gets the missing marker. *)
Definition reindex (old new : list string) (row : list cell) : list cell :=
  map (fun c => match positions c old with
                | i :: _ => nth i row missing
                | [] => missing
                end) new.

(** The rows of [df] under the labels [new].  pandas re-lays a frame only
    when its labels differ from [new], and [Index.get_indexer] then
    demands unique labels. *)
Definition align (df : DataFrame) (new : list string) : result (list (list cell)) :=
  if labels_eqb new (columns df) then Ok (rows df)
  else if is_unique (columns df) then Ok (map (reindex (columns df) new) (rows df))
  else Raise InvalidIndexError.

(** [pd.concat([a, b], ignore_index=True)]. *)
Definition concat (a b : DataFrame) : result DataFrame :=
  let cols := union_indexes (columns a) (columns b) in
  ra <- align a cols ;;
  rb <- align b cols ;;
  Ok (mkFrame cols (ra ++ rb)).

(** [table[label]] used as the right-hand side of a column assignment:
    the cells of the one column so labelled.  With several columns so
    labelled pandas yields a frame, which cannot be assigned to one
    column (ValueError); with none it raises KeyError. *)
Definition select (table : DataFrame) (label : string) : result (list cell) :=
  match positions label (columns table) with
  | [] => Raise KeyError
  | [i] => Ok (map (fun row => nth i row missing) (rows table))
  | _ => Raise ValueError
  end.

(** [df[label] = series] for a label [df] does not have yet.  A frame
    without rows takes its rows from the series. *)
Definition assign (df : DataFrame) (label : string) (series : list cell) : DataFrame :=
  mkFrame (columns df ++ [label])
    (match rows df with
     | [] => map (fun c => repeat missing (length (columns df)) ++ [c]) series
     | rs => map (fun rc => fst rc ++ [snd rc]) (combine rs series)
     end).

(** [df.insert(0, label, scalar)] for a label [df] does not have yet. *)
Definition insert_first (df : DataFrame) (label : string) (value : cell) : DataFrame :=
  mkFrame (label :: columns df) (map (cons value) (rows df)).

(** ** [fix_swedish_numbers]

    The dtype of a column is state pandas keeps beside the cells.  The
    frames here hold the cells only, so the functions that test a dtype
    take it as an argument: [object_dtype col] tells whether
    [df[col].dtype == 'object'].  [infer_string] is the pandas option of
    that name, off before pandas 3 and on from it: with it, a column of
    text is built with the string dtype, not with [object].

    The loop visits every label, and [df[col].dtype] exists only when
    [col] labels one column (a frame has no [dtype]).  A column of dtype
    object is replaced by what [Series.apply] returns: the converted
    cells, as a column whose dtype pandas infers anew. *)

Fixpoint map_result {A B : Type} (f : A -> result B) (l : list A) : result (list B) :=
  match l with
  | [] => Ok []
  | x :: r => y <- f x ;; ys <- map_result f r ;; Ok (y :: ys)
  end.

Definition is_text (c : cell) : bool :=
  match c with CStr _ => true | _ => false end.

Definition is_number (c : cell) : bool :=
  match c with CNum _ => true | _ => false end.

(** A number other than the missing marker. *)
Definition is_value (c : cell) : bool :=
  match c with
  | CNum NaN => false
  | CNum _ => true
  | _ => false
  end.

Definition none_to_nan (c : cell) : cell :=
  match c with CNone => missing | _ => c end.

(** The dtype inferred for the results of [Series.apply] is no longer
    [object]: numbers without text make a float column; text with nothing
    but missing cells beside it makes a string column under
    [infer_string]. *)
Definition becomes_typed (infer_string : bool) (cells : list cell) : bool :=
  if existsb is_text cells
  then infer_string && negb (existsb is_value cells)
  else existsb is_number cells.

(** In a float or string column [None] is held as NaN; in an object
    column the cells stay as they are. *)
Definition infer_objects (infer_string : bool) (cells : list cell) : list cell :=
  if becomes_typed infer_string cells then map none_to_nan cells else cells.

(** [series.apply(lambda x: convert_swedish_number(x) if isinstance(x, str) else x)]. *)
Definition apply_convert (infer_string : bool) (cells : list cell) : result (list cell) :=
  converted <-
    map_result (fun x => if is_text x then convert_swedish_number x else Ok x) cells ;;
  Ok (infer_objects infer_string converted).

(** [df[col]] for the label at position [j]. *)
Definition column_cells (j : nat) (rs : list (list cell)) : list cell :=
  map (fun row => nth j row missing) rs.

Fixpoint set_cell (j : nat) (v : cell) (row : list cell) : list cell :=
  match row, j with
  | [], _ => []
  | _ :: r, 0 => v :: r
  | x :: r, S j' => x :: set_cell j' v r
  end.

(** [df[col] = series] for the label at position [j]. *)
Definition set_column (j : nat) (cells : list cell) (rs : list (list cell))
  : list (list cell) :=
  map (fun rc => set_cell j (snd rc) (fst rc)) (combine rs cells).

(** The loop over the labels from position [j] on. *)
Fixpoint fix_columns (infer_string : bool) (object_dtype : string -> bool)
    (j : nat) (labels : list string) (rs : list (list cell))
  : result (list (list cell)) :=
  match labels with
  | [] => Ok rs
  | col :: rest =>
      rs <-
        (if object_dtype col
         then
           cells <- apply_convert infer_string (column_cells j rs) ;;
           Ok (set_column j cells rs)
         else Ok rs) ;;
      fix_columns infer_string object_dtype (S j) rest rs
  end.

Definition fix_swedish_numbers (infer_string : bool) (object_dtype : string -> bool)
    (df : DataFrame) : result DataFrame :=
  if is_unique (columns df) then
    rs <- fix_columns infer_string object_dtype 0 (columns df) (rows df) ;;
    Ok (mkFrame (columns df) rs)
  else Raise AttributeError.

(** Every column of dtype object, as pandas before 3 holds text; none. *)
Definition all_object : string -> bool := fun _ => true.
Definition no_object : string -> bool := fun _ => false.

(** ** [merge_fragmented_tables] *)

Definition placeholder : string := "Unnamed".

(** The loop state: [merged] and [current_table]. *)
Definition merge_state : Type := (list DataFrame * option DataFrame)%type.

Definition merge_step (st : merge_state) (table : DataFrame) : result merge_state :=
  let '(merged, current_table) := st in
  if empty table then Ok st
  else
    is_continuation <-
      match current_table with
      | Some current =>
          if labels_eqb (columns table) (columns current) then Ok true
          else
            first <- index (columns table) 0 ;;
            Ok (String.prefix placeholder first)
      | None => Ok false
      end ;;
    match is_continuation, current_table with
    | true, Some current =>
        current <- concat current table ;;
        Ok (merged, Some current)
    | _, _ =>
        let merged :=
          match current_table with
          | Some current => merged ++ [current]
          | None => merged
          end in
        Ok (merged, Some table)
    end.

Definition finish (st : merge_state) : list DataFrame :=
  match snd st with
  | Some current => fst st ++ [current]
  | None => fst st
  end.

Definition merge_fragmented_tables (tables : list DataFrame) : result (list DataFrame) :=
  if length tables <=? 1 then Ok tables
  else
    st <- for_each merge_step tables ([], None) ;;
    Ok (finish st).

(** Row count of a list of tables, and the fragments the loop does not skip. *)
Definition total_rows (tables : list DataFrame) : nat :=
  fold_right (fun t n => length (rows t) + n) 0 tables.

Definition non_empty (tables : list DataFrame) : list DataFrame :=
  filter (fun t => negb (empty t)) tables.

Definition current_rows (st : merge_state) : nat :=
  total_rows (fst st) +
  match snd st with
  | Some current => length (rows current)
  | None => 0
  end.

(** Loop invariants: no table held by the state is empty; the open table
    repeats no label. *)
Definition holds_no_empty (st : merge_state) : Prop :=
  Forall (fun t => empty t = false) (fst st) /\
  match snd st with
  | Some current => empty current = false
  | None => True
  end.

Definition open_unique (st : merge_state) : Prop :=
  match snd st with
  | Some current => is_unique (columns current) = true
  | None => True
  end.

(** Sample fragments. *)
Definition frame_A : DataFrame := mkFrame ["A"] [[CStr "1"]].
Definition frame_unnamed : DataFrame := mkFrame ["Unnamed: 0"] [[CStr "2"]].
Definition frame_no_rows : DataFrame := mkFrame ["Sample"] [].
Definition page1 : DataFrame := mkFrame ["A"; "B"] [[CStr "a1"; CStr "b1"]].
Definition page2 : DataFrame := mkFrame ["A"; "B"] [[CStr "a2"; CStr "b2"]].
Definition page3 : DataFrame := mkFrame ["C"; "D"] [[CStr "c1"; CStr "d1"]].

(** ** [extract_summary_data] *)

Definition micro : ascii := ascii_of_nat 181.

Definition sample_cols : list string :=
  ["Sample"; "sample"; "Sample Name"; "sample name"].
Definition ngul_cols : list string :=
  ["ng/ul"; "ng/uL"; "ng/" ++ String micro "l"; "Concentration"; "concentration"]%string.
Definition ratio_cols : list string :=
  ["260/280"; "260 / 280"; "A260/A280"; "Ratio"].

(** [any(s in str(col) for s in variants)]. *)
Definition matches (variants : list string) (col : string) : bool :=
  existsb (fun s => contains s col) variants.

(** [for col in table.columns: if matches: found = col; break]. *)
Fixpoint find_column (variants : list string) (cols : list string) : option string :=
  match cols with
  | [] => None
  | col :: rest =>
      if matches variants col then Some col else find_column variants rest
  end.

(** [if col: extracted[label] = table[col]]; the empty label is falsy. *)
Definition copy_column (table : DataFrame) (col : option string) (label : string)
    (extracted : DataFrame) : result DataFrame :=
  match col with
  | Some (String _ _ as c) =>
      series <- select table c ;;
      Ok (assign extracted label series)
  | _ => Ok extracted
  end.

(** The dtypes of [extracted]: a copied column keeps the dtype it has in
    the table; the source column is a fresh column of text. *)
Definition extracted_dtype (infer_string : bool) (object_dtype : string -> bool)
    (sample_col ngul_col ratio_col : option string) (label : string) : bool :=
  let dtype_of col :=
    match col with
    | Some c => object_dtype c
    | None => false
    end in
  if String.eqb label "Source File" then negb infer_string
  else if String.eqb label "Sample" then dtype_of sample_col
  else if String.eqb label "ng/ul" then dtype_of ngul_col
  else if String.eqb label "260/280" then dtype_of ratio_col
  else false.

Definition extract_summary_data (infer_string : bool) (object_dtype : string -> bool)
    (table : DataFrame) (source_file : string) : result (option DataFrame) :=
  let extracted := new_frame in
  let sample_col := find_column sample_cols (columns table) in
  let ngul_col := find_column ngul_cols (columns table) in
  let ratio_col := find_column ratio_cols (columns table) in
  extracted <- copy_column table sample_col "Sample" extracted ;;
  extracted <- copy_column table ngul_col "ng/ul" extracted ;;
  extracted <- copy_column table ratio_col "260/280" extracted ;;
  extracted <-
    (if negb (empty extracted)
     then fix_swedish_numbers infer_string
            (extracted_dtype infer_string object_dtype sample_col ngul_col ratio_col)
            (insert_first extracted "Source File" (CStr source_file))
     else Ok extracted) ;;
  Ok (if negb (empty extracted) then Some extracted else None).

(** ** The summary, in closed form

    The fields [extract_summary_data] resolves, as pairs of the label in
    the summary and the header in the table, in the order the code copies
    them; and the frame it builds from them. *)

Definition pick (label : string) (col : option string) : list (string * string) :=
  match col with
  | Some c => [(label, c)]
  | None => []
  end.

Definition resolved_fields (table : DataFrame) : list (string * string) :=
  pick "Sample" (find_column sample_cols (columns table)) ++
  pick "ng/ul" (find_column ngul_cols (columns table)) ++
  pick "260/280" (find_column ratio_cols (columns table)).

Definition first_position (c : string) (cols : list string) : nat :=
  hd 0 (positions c cols).

Definition cell_under (table : DataFrame) (row : list cell) (f : string * string) : cell :=
  nth (first_position (snd f) (columns table)) row missing.

(** The header of a field labels exactly one column of the table. *)
Definition single_column (table : DataFrame) (f : string * string) : Prop :=
  exists i, positions (snd f) (columns table) = [i].

Definition project (table : DataFrame) (fs : list (string * string)) : DataFrame :=
  mkFrame (map fst fs)
    (match fs with
     | [] => []
     | _ => map (fun row => map (cell_under table row) fs) (rows table)
     end).

(** The conversion pass without its error plumbing: what it does to one
    cell of a column, and the columns in turn. *)
Definition column_function (infer_string : bool) (cells : list cell) (c : cell) : cell :=
  if becomes_typed infer_string (map normalize_cell cells)
  then none_to_nan (normalize_cell c)
  else normalize_cell c.

Fixpoint update_cell (j : nat) (g : cell -> cell) (row : list cell) : list cell :=
  match row, j with
  | [], _ => []
  | x :: r, 0 => g x :: r
  | x :: r, S j' => x :: update_cell j' g r
  end.

Fixpoint fix_pure (infer_string : bool) (object_dtype : string -> bool)
    (j : nat) (labels : list string) (rs : list (list cell)) : list (list cell) :=
  match labels with
  | [] => rs
  | col :: rest =>
      fix_pure infer_string object_dtype (S j) rest
        (if object_dtype col
         then map (update_cell j (column_function infer_string (column_cells j rs))) rs
         else rs)
  end.

(** A column the conversion pass leaves as it is. *)
Definition settled (infer_string : bool) (cells : list cell) : Prop :=
  forall x, In x cells -> column_function infer_string cells x = x.

Definition summary (infer_string : bool) (object_dtype : string -> bool)
    (table : DataFrame) (source_file : string) : DataFrame :=
  mkFrame ("Source File" :: map fst (resolved_fields table))
    (fix_pure infer_string
       (extracted_dtype infer_string object_dtype
          (find_column sample_cols (columns table))
          (find_column ngul_cols (columns table))
          (find_column ratio_cols (columns table)))
       0 ("Source File" :: map fst (resolved_fields table))
       (map (fun row =>
               CStr source_file :: map (cell_under table row) (resolved_fields table))
          (rows table))).

(** A row laid out anew: under each label of [new] the cell the row had
    under that label, and the missing marker under a label it did not
    have. *)
Definition laid_out (old : list string) (row : list cell)
    (new : list string) (row' : list cell) : Prop :=
  forall j c, nth_error new j = Some c ->
    (forall i, nth_error old i = Some c -> nth j row' missing = nth i row missing) /\
    (mem c old = false -> nth j row' missing = missing).

Fixpoint copy_fields (table : DataFrame) (fs : list (string * string))
    (extracted : DataFrame) : result DataFrame :=
  match fs with
  | [] => Ok extracted
  | f :: rest =>
      series <- select table (snd f) ;;
      copy_fields table rest (assign extracted (fst f) series)
  end.

(** At least one of the three fields found a header. *)
Definition resolves (table : DataFrame) : Prop :=
  find_column sample_cols (columns table) <> None \/
  find_column ngul_cols (columns table) <> None \/
  find_column ratio_cols (columns table) <> None.

Definition sample_table : DataFrame :=
  mkFrame ["Sample Name"; "ng/uL"; "Other"] [[CStr "S1"; CStr "4,141"; CStr "x"]].

(** Texts made of decimal digits only. *)
Fixpoint all_digits (s : string) : bool :=
  match s with
  | EmptyString => true
  | String c r => is_digit c && all_digits r
  end.

(** Every row has one cell per label. *)
Definition well_formed (df : DataFrame) : bool :=
  forallb (fun row => length row =? length (columns df)) (rows df).

(** [b] is no continuation of [a]: other headers, and a first header
    that does not start with the placeholder. *)
Definition starts_new_table (a b : DataFrame) : bool :=
  negb (labels_eqb (columns b) (columns a)) &&
  negb (String.prefix placeholder (hd EmptyString (columns b))).

Fixpoint each_starts_new_table (l : list DataFrame) : bool :=
  match l with
  | a :: (b :: _) as rest => starts_new_table a b && each_starts_new_table rest
  | _ => true
  end.

(** Loop invariant: every table held by the state has full rows. *)
Definition holds_well_formed (st : merge_state) : Prop :=
  Forall (fun t => well_formed t = true) (fst st) /\
  match snd st with
  | Some current => well_formed current = true
  | None => True
  end.

(** ** Paths and names

    The texts [convert_xps_to_pdf] and [convert_pdf_to_excel] compute from
    the path they are given, with [os.path] as on POSIX systems. *)

Definition slash : ascii := "/".

(** [s.replace(old, new)] for a non-empty [old]: occurrences are found
    left to right and do not overlap; [skip] counts the characters of the
    occurrence just found that are still to pass. *)
Fixpoint replace_from (skip : nat) (old new s : string) : string :=
  match s with
  | EmptyString => EmptyString
  | String c r =>
      match skip with
      | S k => replace_from k old new r
      | 0 =>
          if String.prefix old s
          then new ++ replace_from (String.length old - 1) old new r
          else String c (replace_from 0 old new r)
      end
  end.

(** [s.replace('', new)]: [new] before every character and at the end. *)
Fixpoint interleave (new s : string) : string :=
  match s with
  | EmptyString => new
  | String c r => new ++ String c (interleave new r)
  end.

Definition str_replace (old new s : string) : string :=
  match old with
  | EmptyString => interleave new s
  | _ => replace_from 0 old new s
  end.

(** [s.rfind(c)] for a one-character [c]; [None] stands for -1. *)
Fixpoint rfind_from (i : nat) (c : ascii) (s : string) (found : option nat) : option nat :=
  match s with
  | EmptyString => found
  | String x r => rfind_from (S i) c r (if Ascii.eqb x c then Some i else found)
  end.

Definition rfind (c : ascii) (s : string) : option nat := rfind_from 0 c s None.

Fixpoint only (c : ascii) (s : string) : bool :=
  match s with
  | EmptyString => true
  | String x r => Ascii.eqb x c && only c r
  end.

(** [os.path.basename(p)]: what follows the last slash. *)
Definition basename (p : string) : string := last (split slash p) EmptyString.

(** [os.path.splitext(p)]: the split is at the last period, when it comes
    after the last slash and some character between the two is no period. *)
Definition splitext (p : string) : string * string :=
  match rfind period p with
  | None => (p, EmptyString)
  | Some dot =>
      let start := match rfind slash p with Some i => S i | None => 0 end in
      if (start <=? dot) && negb (only period (substring start (dot - start) p))
      then (substring 0 dot p, substring dot (String.length p - dot) p)
      else (p, EmptyString)
  end.

(** [convert_xps_to_pdf]: [xps_path.replace('.xps', '.pdf').replace('.XPS', '.pdf')]. *)
Definition pdf_path_of_xps (xps_path : string) : string :=
  str_replace ".XPS" ".pdf" (str_replace ".xps" ".pdf" xps_path).

(** [convert_pdf_to_excel]:
    [os.path.basename(pdf_path).replace('.pdf', '.xlsx')]. *)
Definition excel_filename (pdf_path : string) : string :=
  str_replace ".pdf" ".xlsx" (basename pdf_path).

(** [convert_pdf_to_excel]:
    [os.path.splitext(os.path.basename(pdf_path))[0]]. *)
Definition source_name (pdf_path : string) : string :=
  fst (splitext (basename pdf_path)).

(** [str(n)] for a natural number. *)
Definition str_of_nat (n : nat) : string := NilEmpty.string_of_uint (Nat.to_uint n).

(** [convert_pdf_to_excel]:
    [f'Table_{idx+1}' if len(tables) > 1 else 'Sheet1']. *)
Definition sheet_name (tables : list DataFrame) (idx : nat) : string :=
  if 1 <? length tables then "Table_" ++ str_of_nat (idx + 1) else "Sheet1".

(** * Properties *)

(** ** Strings *)

Lemma count_replace (a b : ascii) (s : string) :
  a <> b -> count a (replace a b s) = 0.
Proof.
  intros Hab. induction s as [|c r IH]; simpl; [reflexivity|].
  destruct (Ascii.eqb c a) eqn:Hc.
  - destruct (Ascii.eqb b a) eqn:Hb; [|exact IH].
    apply Ascii.eqb_eq in Hb. congruence.
  - rewrite Hc. exact IH.
Qed.

Lemma count_append (c : ascii) (s t : string) :
  count c (s ++ t) = count c s + count c t.
Proof.
  induction s as [|a r IH]; simpl; [reflexivity|].
  destruct (Ascii.eqb a c); simpl; rewrite IH; reflexivity.
Qed.

Lemma split_not_nil (sep : ascii) (s : string) : split sep s <> [].
Proof.
  destruct s as [|c r]; simpl; [discriminate|].
  destruct (Ascii.eqb c sep); [discriminate|].
  destruct (split sep r); discriminate.
Qed.

(** A character absent from a text is absent from each of its parts. *)
Lemma split_count (c sep : ascii) (s : string) :
  count c s = 0 -> Forall (fun p => count c p = 0) (split sep s).
Proof.
  induction s as [|a r IH]; simpl; intros H.
  - constructor; [reflexivity|constructor].
  - destruct (Ascii.eqb a c) eqn:Hac; [discriminate|].
    specialize (IH H).
    destruct (Ascii.eqb a sep).
    + constructor; [reflexivity|exact IH].
    + destruct (split sep r) as [|p ps].
      * constructor; [simpl; rewrite Hac; reflexivity|constructor].
      * inversion IH; subst. constructor; [simpl; rewrite Hac; assumption|assumption].
Qed.

Lemma comma_not_period : comma <> period.
Proof. discriminate. Qed.

(** ** [float] fails with ValueError only *)

Lemma py_float_raises (s : string) (e : exn) :
  py_float s = Raise e -> e = ValueError.
Proof.
  unfold py_float.
  destruct (existsb _ _ && negb _); [intros H; inversion H; reflexivity|].
  destruct (parse_sign _) as [neg body].
  destruct (parse_decimal neg body); [discriminate|].
  destruct (parse_special neg body); [discriminate|].
  intros H; inversion H; reflexivity.
Qed.

Lemma float_or_cases (text fallback : string) :
  (exists x, py_float text = Ok x /\ float_or text fallback = Ok (CNum x)) \/
  (py_float text = Raise ValueError /\ float_or text fallback = Ok (CStr fallback)).
Proof.
  unfold float_or. destruct (py_float text) as [x|e] eqn:H.
  - left. exists x. split; reflexivity.
  - right. apply py_float_raises in H. subst e. split; reflexivity.
Qed.

(** ** The text [convert_swedish_number] hands to [float] *)

Lemma rewrite_two_separators_no_comma (value : string) :
  count comma (rewrite_two_separators value) = 0.
Proof.
  unfold rewrite_two_separators.
  pose proof (count_replace comma period value comma_not_period) as H0.
  pose proof (split_count comma period _ H0) as HF.
  destruct (split period (replace comma period value)) as [|p0 [|p1 [|p2 [|p3 ps]]]];
    try exact H0.
  destruct (String.length p1 =? 1); [|exact H0].
  inversion HF as [|? ? Hp0 HF1]; subst.
  inversion HF1 as [|? ? Hp1 HF2]; subst.
  inversion HF2 as [|? ? Hp2 HF3]; subst.
  rewrite count_append. simpl. rewrite Hp0, Hp2. reflexivity.
Qed.

(** The branches of [convert_swedish_number] on text, one equation each. *)
Lemma convert_text (value : string) :
  convert_swedish_number (CStr value) =
  if re_match_number value then
    if (count comma value =? 1) && (count period value =? 0)
    then float_or (replace comma period value) value
    else if (count comma value =? 1) && (count period value =? 1)
    then float_or (rewrite_two_separators value) (rewrite_two_separators value)
    else Ok (CStr value)
  else Ok (CStr value).
Proof.
  unfold convert_swedish_number, rewrite_two_separators.
  destruct (re_match_number value); [|reflexivity].
  destruct ((count comma value =? 1) && (count period value =? 0)); [reflexivity|].
  destruct ((count comma value =? 1) && (count period value =? 1)); [|reflexivity].
  destruct (split period (replace comma period value)) as [|p0 [|p1 [|p2 [|p3 ps]]]];
    try reflexivity.
  simpl. destruct (String.length p1 =? 1); reflexivity.
Qed.

Lemma convert_no_comma (value : string) :
  count comma value = 0 -> convert_swedish_number (CStr value) = Ok (CStr value).
Proof.
  intros H. rewrite convert_text, H. simpl.
  destruct (re_match_number value); reflexivity.
Qed.

(** What a call on text can return. *)
Lemma convert_text_cases (value : string) :
  (exists x, convert_swedish_number (CStr value) = Ok (CNum x)) \/
  convert_swedish_number (CStr value) = Ok (CStr value) \/
  (exists t, convert_swedish_number (CStr value) = Ok (CStr t) /\ count comma t = 0).
Proof.
  rewrite convert_text.
  destruct (re_match_number value); [|right; left; reflexivity].
  destruct ((count comma value =? 1) && (count period value =? 0)).
  { destruct (float_or_cases (replace comma period value) value) as [[x [_ H]]|[_ H]];
      rewrite H; [left; exists x; reflexivity|right; left; reflexivity]. }
  destruct ((count comma value =? 1) && (count period value =? 1));
    [|right; left; reflexivity].
  destruct (float_or_cases (rewrite_two_separators value) (rewrite_two_separators value))
    as [[x [_ H]]|[_ H]]; rewrite H.
  - left; exists x; reflexivity.
  - right; right. exists (rewrite_two_separators value).
    split; [reflexivity|apply rewrite_two_separators_no_comma].
Qed.

(** ** Claims on [convert_swedish_number] *)

(** C1.  The test vectors: "4,141" gives the number 4.141, "173,0.71"
    gives 173.71, "1.234.567" and "abc" come back as the same text, and
    the number 42 comes back as it is. *)
Theorem convert_test_vectors :
  convert_swedish_number (CStr "4,141") = Ok (CNum (Finite (Qmake 4141 1000))) /\
  convert_swedish_number (CStr "173,0.71") = Ok (CNum (Finite (Qmake 17371 100))) /\
  convert_swedish_number (CStr "1.234.567") = Ok (CStr "1.234.567") /\
  convert_swedish_number (CStr "abc") = Ok (CStr "abc") /\
  convert_swedish_number (CNum (integer 42)) = Ok (CNum (integer 42)).
Proof. repeat split; vm_compute; reflexivity. Qed.

(** With one comma and no period, a failed parse gives the text back. *)
Lemma comma_only_failure_keeps_text (value : string) :
  re_match_number value = true ->
  count comma value = 1 -> count period value = 0 ->
  py_float (replace comma period value) = Raise ValueError ->
  convert_swedish_number (CStr value) = Ok (CStr value).
Proof.
  intros Hm Hc Hp Hf. rewrite convert_text, Hm, Hc, Hp. simpl.
  unfold float_or. rewrite Hf. reflexivity.
Qed.

(** With one comma and one period, a failed parse gives the rewritten
    text, which has lost its comma and so is never the text passed in. *)
Lemma two_separators_failure_changes_text (value : string) :
  re_match_number value = true ->
  count comma value = 1 -> count period value = 1 ->
  py_float (rewrite_two_separators value) = Raise ValueError ->
  convert_swedish_number (CStr value) = Ok (CStr (rewrite_two_separators value)) /\
  rewrite_two_separators value <> value.
Proof.
  intros Hm Hc Hp Hf. split.
  - rewrite convert_text, Hm, Hc, Hp. simpl. unfold float_or. rewrite Hf. reflexivity.
  - intros Heq. pose proof (rewrite_two_separators_no_comma value) as H0.
    rewrite Heq in H0. congruence.
Qed.

(** C2.  On "1,25.5" the parse of the rewritten text "1.25.5" fails and
    the call returns "1.25.5", not the text it was given. *)
Theorem two_separators_failure_returns_rewritten :
  py_float "1.25.5" = Raise ValueError /\
  convert_swedish_number (CStr "1,25.5") = Ok (CStr "1.25.5") /\
  convert_swedish_number (CStr "1,25.5") <> Ok (CStr "1,25.5").
Proof.
  repeat split; try (vm_compute; reflexivity).
  vm_compute. discriminate.
Qed.

(** C4.  Idempotence: a call returns, and a second call on what it
    returned gives the same value again. *)
Theorem convert_idempotent (x : cell) :
  exists y, convert_swedish_number x = Ok y /\ convert_swedish_number y = Ok y.
Proof.
  destruct x as [s|n|].
  - destruct (convert_text_cases s) as [[x H]|[H|[t [H Ht]]]].
    + exists (CNum x). split; [exact H|reflexivity].
    + exists (CStr s). split; exact H.
    + exists (CStr t). split; [exact H|apply convert_no_comma; exact Ht].
  - exists (CNum n). split; reflexivity.
  - exists CNone. split; reflexivity.
Qed.

(** C9.  On every text the call returns, and returns a number or a text:
    the parse failure is caught and the guarded indexing stays in range. *)
Theorem convert_total_on_text (s : string) :
  exists v, convert_swedish_number (CStr s) = Ok v /\
            ((exists x, v = CNum x) \/ (exists t, v = CStr t)).
Proof.
  destruct (convert_text_cases s) as [[x H]|[H|[t [H _]]]].
  - exists (CNum x). split; [exact H|left; exists x; reflexivity].
  - exists (CStr s). split; [exact H|right; exists s; reflexivity].
  - exists (CStr t). split; [exact H|right; exists t; reflexivity].
Qed.

Lemma convert_normalize (c : cell) :
  convert_swedish_number c = Ok (normalize_cell c).
Proof.
  unfold normalize_cell. destruct c as [s|n|]; [|reflexivity|reflexivity].
  destruct (convert_text_cases s) as [[x H]|[H|[t [H _]]]]; rewrite H; reflexivity.
Qed.

(** ** Labels *)

Lemma labels_eqb_eq (a b : list string) : labels_eqb a b = true <-> a = b.
Proof.
  revert b. induction a as [|x a IH]; intros [|y b]; simpl;
    try (split; [discriminate|discriminate]); try (split; reflexivity).
  rewrite andb_true_iff, String.eqb_eq, IH.
  split; [intros [-> ->]; reflexivity|intros H; inversion H; auto].
Qed.

Lemma labels_eqb_refl (a : list string) : labels_eqb a a = true.
Proof. apply labels_eqb_eq. reflexivity. Qed.

Lemma mem_In (c : string) (l : list string) : mem c l = true <-> In c l.
Proof.
  unfold mem. rewrite existsb_exists. split.
  - intros [x [Hx He]]. apply String.eqb_eq in He. subst. exact Hx.
  - intros H. exists c. split; [exact H|apply String.eqb_refl].
Qed.

Lemma mem_app (c : string) (a b : list string) :
  mem c (a ++ b) = mem c a || mem c b.
Proof. unfold mem. apply existsb_app. Qed.

Lemma is_unique_NoDup (l : list string) : is_unique l = true <-> NoDup l.
Proof.
  induction l as [|x r IH]; simpl.
  - split; [constructor|reflexivity].
  - rewrite andb_true_iff, negb_true_iff, IH. split.
    + intros [Hx Hr]. constructor; [|exact Hr].
      intros Hin. apply mem_In in Hin. congruence.
    + intros H. inversion H as [|? ? Hx Hr]; subst. split; [|exact Hr].
      destruct (mem x r) eqn:E; [|reflexivity].
      apply mem_In in E. contradiction.
Qed.

Lemma unique_onto_app (seen a b : list string) :
  unique_onto seen (a ++ b) = unique_onto (unique_onto seen a) b.
Proof.
  revert seen. induction a as [|x a IH]; intros seen; simpl; [reflexivity|apply IH].
Qed.

Lemma unique_onto_length (seen l : list string) :
  length seen <= length (unique_onto seen l).
Proof.
  revert seen. induction l as [|x r IH]; intros seen; simpl; [lia|].
  destruct (mem x seen); [apply IH|].
  specialize (IH (seen ++ [x])). rewrite length_app in IH. simpl in IH. lia.
Qed.

(** On labels without repetition, the labels not yet seen are appended. *)
Lemma unique_onto_unique (seen l : list string) :
  is_unique l = true ->
  unique_onto seen l = seen ++ filter (fun c => negb (mem c seen)) l.
Proof.
  revert seen. induction l as [|x r IH]; intros seen; simpl.
  - intros _. rewrite app_nil_r. reflexivity.
  - rewrite andb_true_iff, negb_true_iff. intros [Hx Hr].
    destruct (mem x seen) eqn:Hs; simpl.
    + apply IH. exact Hr.
    + rewrite (IH _ Hr), <- app_assoc. simpl. do 2 f_equal.
      apply filter_ext_in. intros c Hc. rewrite mem_app. simpl.
      destruct (String.eqb c x) eqn:E.
      * apply String.eqb_eq in E. subst c. apply mem_In in Hc. congruence.
      * rewrite orb_false_r. reflexivity.
Qed.

Lemma filter_seen_nil (seen l : list string) :
  (forall c, In c l -> mem c seen = true) ->
  filter (fun c => negb (mem c seen)) l = [].
Proof.
  induction l as [|x l IH]; simpl; intros Hin; [reflexivity|].
  rewrite (Hin x (or_introl eq_refl)). simpl.
  apply IH. intros c Hc. apply Hin. right. exact Hc.
Qed.

(** The labels of a concatenation of two frames with unrepeated labels. *)
Lemma union_indexes_unique (a b : list string) :
  is_unique a = true -> is_unique b = true ->
  union_indexes a b = a ++ filter (fun c => negb (mem c a)) b.
Proof.
  intros Ha Hb. unfold union_indexes.
  destruct (labels_eqb a b) eqn:E.
  - apply labels_eqb_eq in E. subst b.
    assert (H : filter (fun c => negb (mem c a)) a = []).
    { apply filter_seen_nil. intros c Hc. apply mem_In. exact Hc. }
    rewrite H, app_nil_r. reflexivity.
  - rewrite unique_onto_app, (unique_onto_unique [] a Ha). simpl.
    assert (H : filter (fun _ : string => true) a = a).
    { clear. induction a as [|x a IH]; simpl; [reflexivity|rewrite IH; reflexivity]. }
    rewrite H. apply unique_onto_unique. exact Hb.
Qed.

Lemma union_indexes_not_nil (a b : list string) :
  a <> [] -> union_indexes a b <> [].
Proof.
  intros Ha. unfold union_indexes. destruct (labels_eqb a b); [exact Ha|].
  destruct a as [|x a]; [contradiction|]. simpl.
  pose proof (unique_onto_length [x] (a ++ b)) as H. simpl in H.
  intros E. rewrite E in H. simpl in H. lia.
Qed.

(** ** [pd.concat] *)

Lemma align_length (df : DataFrame) (new : list string) (rs : list (list cell)) :
  align df new = Ok rs -> length rs = length (rows df).
Proof.
  unfold align. destruct (labels_eqb new (columns df)).
  - intros H; inversion H; reflexivity.
  - destruct (is_unique (columns df)); [|discriminate].
    intros H; inversion H. apply length_map.
Qed.

Lemma align_unique (df : DataFrame) (new : list string) :
  is_unique (columns df) = true -> exists rs, align df new = Ok rs.
Proof.
  intros H. unfold align. rewrite H.
  destruct (labels_eqb new (columns df)); eexists; reflexivity.
Qed.

Lemma concat_inv (a b r : DataFrame) :
  concat a b = Ok r ->
  exists ra rb,
    align a (union_indexes (columns a) (columns b)) = Ok ra /\
    align b (union_indexes (columns a) (columns b)) = Ok rb /\
    r = mkFrame (union_indexes (columns a) (columns b)) (ra ++ rb).
Proof.
  unfold concat.
  destruct (align a _) as [ra|e] eqn:Ha; simpl; [|discriminate].
  destruct (align b _) as [rb|e] eqn:Hb; simpl; [|discriminate].
  intros H; inversion H. exists ra, rb. repeat split.
Qed.

Lemma concat_rows_length (a b r : DataFrame) :
  concat a b = Ok r -> length (rows r) = length (rows a) + length (rows b).
Proof.
  intros H. apply concat_inv in H. destruct H as [ra [rb [Ha [Hb ->]]]]. simpl.
  rewrite length_app, (align_length _ _ _ Ha), (align_length _ _ _ Hb). reflexivity.
Qed.

Lemma concat_unique (a b : DataFrame) :
  is_unique (columns a) = true -> is_unique (columns b) = true ->
  exists r, concat a b = Ok r.
Proof.
  intros Ha Hb. unfold concat.
  destruct (align_unique a (union_indexes (columns a) (columns b)) Ha) as [ra ->].
  destruct (align_unique b (union_indexes (columns a) (columns b)) Hb) as [rb ->].
  simpl. eexists; reflexivity.
Qed.

(** Same labels on both sides: the rows of the second frame follow the
    rows of the first, whatever the labels are. *)
Lemma concat_same_labels (a b : DataFrame) :
  columns a = columns b ->
  concat a b = Ok (mkFrame (columns a) (rows a ++ rows b)).
Proof.
  intros E. unfold concat, union_indexes, align.
  rewrite <- E, !labels_eqb_refl. reflexivity.
Qed.

Lemma empty_false (df : DataFrame) :
  empty df = false <-> columns df <> [] /\ rows df <> [].
Proof.
  unfold empty. destruct (columns df), (rows df); simpl; split;
    try discriminate; try (intros [H1 H2]; congruence); intros _; split; discriminate.
Qed.

Lemma concat_not_empty (a b r : DataFrame) :
  concat a b = Ok r -> empty a = false -> empty r = false.
Proof.
  intros H Ha. apply empty_false in Ha. destruct Ha as [Hc Hr].
  pose proof (concat_rows_length _ _ _ H) as Hl.
  apply concat_inv in H. destruct H as [ra [rb [_ [_ ->]]]].
  apply empty_false. simpl in *. split.
  - apply union_indexes_not_nil. exact Hc.
  - intros E. rewrite E in Hl. simpl in Hl. destruct (rows a); [congruence|simpl in Hl; lia].
Qed.

(** ** The merge loop *)

Lemma merge_step_skip (st : merge_state) (e : DataFrame) :
  empty e = true -> merge_step st e = Ok st.
Proof. intros H. unfold merge_step. destruct st as [merged cur]. rewrite H. reflexivity. Qed.

Lemma merge_step_open (t : DataFrame) :
  empty t = false -> merge_step ([], None) t = Ok ([], Some t).
Proof. intros H. unfold merge_step. rewrite H. reflexivity. Qed.

Lemma index_first (t : DataFrame) :
  empty t = false -> exists c, index (columns t) 0 = Ok c.
Proof.
  intros H. apply empty_false in H. destruct H as [H _].
  destruct (columns t) as [|c r]; [contradiction|]. exists c. reflexivity.
Qed.

(** One pass of the loop body: the fragment is skipped, merged into the
    open table, or closes the open table and opens the next. *)
Lemma merge_step_cases (st st' : merge_state) (t : DataFrame) :
  merge_step st t = Ok st' ->
  (empty t = true /\ st' = st) \/
  (empty t = false /\
   exists cur r, snd st = Some cur /\ concat cur t = Ok r /\ st' = (fst st, Some r)) \/
  (empty t = false /\ st' = (finish st, Some t)).
Proof.
  unfold merge_step. destruct st as [merged cur].
  destruct (empty t) eqn:He.
  { intros H; inversion H. left. split; reflexivity. }
  intros H. right.
  destruct cur as [cur|]; simpl in H.
  - destruct (labels_eqb (columns t) (columns cur)).
    + simpl in H. destruct (concat cur t) as [r|e] eqn:Hc; simpl in H; [|discriminate].
      inversion H. left. split; [reflexivity|]. exists cur, r. repeat split. exact Hc.
    + destruct (index_first t He) as [c Hc]. rewrite Hc in H. simpl in H.
      destruct (String.prefix placeholder c).
      * destruct (concat cur t) as [r|e] eqn:Hr; simpl in H; [|discriminate].
        inversion H. left. split; [reflexivity|]. exists cur, r. repeat split. exact Hr.
      * inversion H. right. split; reflexivity.
  - inversion H. right. split; reflexivity.
Qed.

Lemma total_rows_app (a b : list DataFrame) :
  total_rows (a ++ b) = total_rows a + total_rows b.
Proof. induction a as [|t a IH]; simpl; [reflexivity|rewrite IH; lia]. Qed.

Lemma total_rows_finish (st : merge_state) :
  total_rows (finish st) = current_rows st.
Proof.
  destruct st as [merged [cur|]]; unfold finish, current_rows; simpl.
  - rewrite total_rows_app. simpl. lia.
  - lia.
Qed.

(** Rows held by the loop state grow by the rows of each fragment taken. *)
Lemma merge_step_rows (st st' : merge_state) (t : DataFrame) :
  merge_step st t = Ok st' ->
  current_rows st' = current_rows st + total_rows (non_empty [t]).
Proof.
  intros H. unfold non_empty. simpl.
  destruct (merge_step_cases _ _ _ H) as [[He ->]|[[He [cur [r [Hs [Hc ->]]]]]|[He ->]]];
    rewrite He; simpl.
  - lia.
  - destruct st as [merged c]. simpl in Hs. subst c.
    unfold current_rows. simpl. rewrite (concat_rows_length _ _ _ Hc). lia.
  - unfold current_rows at 1. simpl. rewrite total_rows_finish. lia.
Qed.

Lemma for_each_rows (ts : list DataFrame) (st st' : merge_state) :
  for_each merge_step ts st = Ok st' ->
  current_rows st' = current_rows st + total_rows (non_empty ts).
Proof.
  revert st. induction ts as [|t ts IH]; intros st; simpl.
  - intros H; inversion H. unfold non_empty. simpl. lia.
  - destruct (merge_step st t) as [st1|e] eqn:H1; simpl; [|discriminate].
    intros H. rewrite (IH _ H), (merge_step_rows _ _ _ H1).
    unfold non_empty. simpl. destruct (negb (empty t)); simpl; lia.
Qed.

Lemma finish_no_empty (st : merge_state) :
  holds_no_empty st -> Forall (fun t => empty t = false) (finish st).
Proof.
  destruct st as [merged [cur|]]; unfold holds_no_empty, finish; simpl; intros [H1 H2].
  - apply Forall_app. split; [exact H1|constructor; [exact H2|constructor]].
  - exact H1.
Qed.

Lemma merge_step_no_empty (st st' : merge_state) (t : DataFrame) :
  merge_step st t = Ok st' -> holds_no_empty st -> holds_no_empty st'.
Proof.
  intros H Hinv.
  destruct (merge_step_cases _ _ _ H) as [[He ->]|[[He [cur [r [Hs [Hc ->]]]]]|[He ->]]].
  - exact Hinv.
  - destruct Hinv as [H1 H2]. rewrite Hs in H2. split; simpl; [exact H1|].
    apply (concat_not_empty _ _ _ Hc H2).
  - split; simpl; [apply finish_no_empty; exact Hinv|exact He].
Qed.

Lemma for_each_no_empty (ts : list DataFrame) (st st' : merge_state) :
  for_each merge_step ts st = Ok st' -> holds_no_empty st -> holds_no_empty st'.
Proof.
  revert st. induction ts as [|t ts IH]; intros st; simpl.
  - intros H; inversion H; subst. auto.
  - destruct (merge_step st t) as [st1|e] eqn:H1; simpl; [|discriminate].
    intros H Hinv. apply (IH _ H). apply (merge_step_no_empty _ _ _ H1 Hinv).
Qed.

Lemma for_each_app {S A : Type} (body : S -> A -> result S) (xs ys : list A) (st : S) :
  for_each body (xs ++ ys) st = (st' <- for_each body xs st ;; for_each body ys st').
Proof.
  revert st. induction xs as [|x xs IH]; intros st; simpl; [reflexivity|].
  destruct (body st x); simpl; [apply IH|reflexivity].
Qed.

(** The loop runs to its end when no fragment it takes repeats a label. *)
Lemma is_unique_unique_onto (seen l : list string) :
  is_unique seen = true -> is_unique (unique_onto seen l) = true.
Proof.
  revert seen. induction l as [|x r IH]; intros seen Hs; simpl; [exact Hs|].
  apply IH. destruct (mem x seen) eqn:E; [exact Hs|].
  apply is_unique_NoDup. apply is_unique_NoDup in Hs.
  apply NoDup_app; [exact Hs|constructor; [intros []|constructor]|].
  intros c Hc [Hx|[]]. subst c. apply mem_In in Hc. congruence.
Qed.

Lemma union_indexes_is_unique (a b : list string) :
  is_unique a = true -> is_unique (union_indexes a b) = true.
Proof.
  intros Ha. unfold union_indexes. destruct (labels_eqb a b); [exact Ha|].
  apply is_unique_unique_onto. reflexivity.
Qed.

Lemma merge_step_returns (st : merge_state) (t : DataFrame) :
  open_unique st -> (empty t = false -> is_unique (columns t) = true) ->
  exists st', merge_step st t = Ok st' /\ open_unique st'.
Proof.
  intros Hst Ht. destruct (empty t) eqn:He.
  { exists st. split; [apply merge_step_skip; exact He|exact Hst]. }
  specialize (Ht eq_refl).
  unfold merge_step. destruct st as [merged [cur|]]; rewrite He; simpl.
  - unfold open_unique in Hst. simpl in Hst.
    destruct (concat_unique cur t Hst Ht) as [r Hr].
    assert (Hu : is_unique (columns r) = true).
    { apply concat_inv in Hr. destruct Hr as [ra [rb [_ [_ ->]]]]. simpl.
      apply union_indexes_is_unique. exact Hst. }
    destruct (labels_eqb (columns t) (columns cur)); simpl.
    + rewrite Hr. simpl. eexists; split; [reflexivity|exact Hu].
    + destruct (index_first t He) as [c ->]. simpl.
      destruct (String.prefix placeholder c).
      * rewrite Hr. simpl. eexists; split; [reflexivity|exact Hu].
      * eexists; split; [reflexivity|exact Ht].
  - eexists; split; [reflexivity|exact Ht].
Qed.

Lemma for_each_returns (ts : list DataFrame) (st : merge_state) :
  open_unique st ->
  Forall (fun t => empty t = false -> is_unique (columns t) = true) ts ->
  exists st', for_each merge_step ts st = Ok st'.
Proof.
  revert st. induction ts as [|t ts IH]; intros st Hst Hts; simpl.
  - eexists; reflexivity.
  - inversion Hts as [|? ? Ht Hr]; subst.
    destruct (merge_step_returns st t Hst Ht) as [st1 [-> H1]]. simpl.
    apply IH; assumption.
Qed.

Lemma merge_long (tables : list DataFrame) :
  2 <= length tables ->
  merge_fragmented_tables tables =
  (st <- for_each merge_step tables ([], None) ;; Ok (finish st)).
Proof.
  intros H. unfold merge_fragmented_tables.
  destruct (length tables <=? 1) eqn:E; [|reflexivity].
  apply Nat.leb_le in E. lia.
Qed.

(** ** Cells under re-laid labels *)

Lemma positions_from_absent (k : nat) (c : string) (l : list string) :
  mem c l = false -> positions_from k c l = [].
Proof.
  revert k. induction l as [|x r IH]; intros k; simpl; [reflexivity|].
  rewrite orb_false_iff, String.eqb_sym. intros [-> Hr]. apply IH. exact Hr.
Qed.

Lemma positions_from_unique (k i : nat) (c : string) (l : list string) :
  is_unique l = true -> nth_error l i = Some c -> positions_from k c l = [k + i].
Proof.
  revert k i. induction l as [|x r IH]; intros k i Hu Hi; [destruct i; discriminate|].
  simpl in Hu. apply andb_true_iff in Hu. destruct Hu as [Hx Hr].
  apply negb_true_iff in Hx. destruct i as [|i]; simpl in *.
  - inversion Hi; subst x. rewrite String.eqb_refl, (positions_from_absent _ _ _ Hx).
    f_equal. lia.
  - destruct (String.eqb x c) eqn:E.
    + apply String.eqb_eq in E. subst x.
      apply nth_error_In, mem_In in Hi. congruence.
    + rewrite (IH (S k) i Hr Hi). f_equal. lia.
Qed.

(** Re-laying a row keeps each cell under its label. *)
Lemma reindex_keeps_cell (old new : list string) (row : list cell) (i j : nat) (c : string) :
  is_unique old = true ->
  nth_error old i = Some c -> nth_error new j = Some c ->
  nth j (reindex old new row) missing = nth i row missing.
Proof.
  intros Hu Hi Hj. unfold reindex.
  apply nth_error_nth. rewrite nth_error_map, Hj. simpl.
  unfold positions. rewrite (positions_from_unique 0 i c old Hu Hi). reflexivity.
Qed.

(** A label the row does not have is filled with the missing marker. *)
Lemma reindex_fills_missing (old new : list string) (row : list cell) (j : nat) (c : string) :
  mem c old = false -> nth_error new j = Some c ->
  nth j (reindex old new row) missing = missing.
Proof.
  intros Hc Hj. unfold reindex.
  apply nth_error_nth. rewrite nth_error_map, Hj. simpl.
  unfold positions. rewrite (positions_from_absent 0 c old Hc). reflexivity.
Qed.

Lemma unique_position (l : list string) (i j : nat) (c : string) :
  is_unique l = true -> nth_error l i = Some c -> nth_error l j = Some c -> i = j.
Proof.
  intros Hu Hi Hj. apply is_unique_NoDup in Hu.
  apply (proj1 (NoDup_nth_error l) Hu).
  - apply nth_error_Some. rewrite Hi. discriminate.
  - rewrite Hi, Hj. reflexivity.
Qed.

(** The rows [align] returns: row for row those of the frame, every cell
    under its label and the missing marker under the labels the frame
    lacks. *)
Lemma align_lays_out (df : DataFrame) (new : list string) (rs : list (list cell))
    (k : nat) (row : list cell) :
  is_unique (columns df) = true ->
  align df new = Ok rs ->
  nth_error (rows df) k = Some row ->
  exists row', nth_error rs k = Some row' /\ laid_out (columns df) row new row'.
Proof.
  intros Hu Ha Hk. unfold align in Ha.
  destruct (labels_eqb new (columns df)) eqn:E.
  - apply labels_eqb_eq in E. subst new. inversion Ha; subst rs.
    exists row. split; [exact Hk|]. intros j c Hj. split.
    + intros i Hi. rewrite (unique_position _ _ _ _ Hu Hi Hj). reflexivity.
    + intros Hm. apply nth_error_In, mem_In in Hj. congruence.
  - rewrite Hu in Ha. inversion Ha; subst rs.
    exists (reindex (columns df) new row). split.
    + rewrite nth_error_map, Hk. reflexivity.
    + intros j c Hj. split.
      * intros i Hi. apply (reindex_keeps_cell _ _ _ _ _ _ Hu Hi Hj).
      * intros Hm. apply (reindex_fills_missing _ _ _ _ _ Hm Hj).
Qed.

(** ** Claims on [merge_fragmented_tables] *)

(** C3, as the code has it.  A non-empty fragment whose first header
    starts with the placeholder is merged into the open table by
    [pd.concat], and the merged table takes the open table's place.  Its
    headers are those of the open table followed by the fragment's headers
    the open table lacks.  Its rows are the open table's rows and after
    them the fragment's rows, in order and one for one; in each, every
    cell stands under the header it had, and the missing marker under the
    headers its table did not have.  Both header sequences are taken
    without repetition, which [pd.concat] needs to re-lay rows. *)
Theorem placeholder_continuation
    (merged : list DataFrame) (acc frag : DataFrame) (first : string) (rest : list string) :
  empty frag = false ->
  columns frag = first :: rest ->
  String.prefix placeholder first = true ->
  is_unique (columns acc) = true ->
  is_unique (columns frag) = true ->
  exists r,
    merge_step (merged, Some acc) frag = Ok (merged, Some r) /\
    (empty acc = false -> merge_fragmented_tables [acc; frag] = Ok [r]) /\
    columns r = columns acc ++ filter (fun c => negb (mem c (columns acc))) (columns frag) /\
    length (rows r) = length (rows acc) + length (rows frag) /\
    (forall k row,
        nth_error (rows acc) k = Some row ->
        exists row',
          nth_error (rows r) k = Some row' /\
          laid_out (columns acc) row (columns r) row') /\
    (forall k row,
        nth_error (rows frag) k = Some row ->
        exists row',
          nth_error (rows r) (length (rows acc) + k) = Some row' /\
          laid_out (columns frag) row (columns r) row').
Proof.
  intros He Hc Hp Ha Hf.
  destruct (concat_unique acc frag Ha Hf) as [r Hr].
  assert (Hstep : forall m, merge_step (m, Some acc) frag = Ok (m, Some r)).
  { intros m. unfold merge_step. rewrite He. simpl.
    destruct (labels_eqb (columns frag) (columns acc)); simpl.
    - rewrite Hr. reflexivity.
    - rewrite Hc. simpl. rewrite Hp, Hr. reflexivity. }
  destruct (concat_inv _ _ _ Hr) as [ra [rb [Hra [Hrb E]]]].
  exists r. subst r. cbn [columns rows].
  pose proof (align_length _ _ _ Hra) as La.
  pose proof (align_length _ _ _ Hrb) as Lb.
  split; [apply Hstep|]. split; [|split; [|split; [|split]]].
  - intros Hacc. unfold merge_fragmented_tables. cbn [length Nat.leb for_each].
    rewrite (merge_step_open _ Hacc). cbn [bind]. rewrite Hstep. reflexivity.
  - apply union_indexes_unique; assumption.
  - rewrite length_app, La, Lb. reflexivity.
  - intros k row Hk.
    destruct (align_lays_out _ _ _ _ _ Ha Hra Hk) as [row' [H1 H2]].
    exists row'. split; [|exact H2].
    rewrite nth_error_app1; [exact H1|]. apply nth_error_Some. rewrite H1. discriminate.
  - intros k row Hk.
    destruct (align_lays_out _ _ _ _ _ Hf Hrb Hk) as [row' [H1 H2]].
    exists row'. split; [|exact H2].
    rewrite nth_error_app2 by (rewrite La; lia).
    rewrite La. replace (length (rows acc) + k - length (rows acc)) with k by lia.
    exact H1.
Qed.

Lemma placeholder_continuation_witness :
  empty frame_unnamed = false /\
  columns frame_unnamed = ["Unnamed: 0"] /\
  String.prefix placeholder "Unnamed: 0" = true /\
  is_unique (columns frame_A) = true /\
  is_unique (columns frame_unnamed) = true /\
  exists r,
    merge_step ([], Some frame_A) frame_unnamed = Ok ([], Some r) /\
    (empty frame_A = false ->
     merge_fragmented_tables [frame_A; frame_unnamed] = Ok [r]) /\
    columns r =
      columns frame_A ++
      filter (fun c => negb (mem c (columns frame_A))) (columns frame_unnamed) /\
    length (rows r) = length (rows frame_A) + length (rows frame_unnamed) /\
    (forall k row,
        nth_error (rows frame_A) k = Some row ->
        exists row',
          nth_error (rows r) k = Some row' /\
          laid_out (columns frame_A) row (columns r) row') /\
    (forall k row,
        nth_error (rows frame_unnamed) k = Some row ->
        exists row',
          nth_error (rows r) (length (rows frame_A) + k) = Some row' /\
          laid_out (columns frame_unnamed) row (columns r) row').
Proof.
  do 5 (split; [reflexivity|]).
  apply (placeholder_continuation [] frame_A frame_unnamed "Unnamed: 0" []); reflexivity.
Defined.

(** C3, as the claim has it, fails: merging the fragment headed
    "Unnamed: 0" into the table headed "A" gives the headers "A",
    "Unnamed: 0", and rows that are not the two row lists appended. *)
Lemma placeholder_fragment_adds_headers :
  exists r,
    merge_fragmented_tables [frame_A; frame_unnamed] = Ok [r] /\
    r = mkFrame ["A"; "Unnamed: 0"] [[CStr "1"; missing]; [missing; CStr "2"]] /\
    columns r <> columns frame_A /\
    rows r <> rows frame_A ++ rows frame_unnamed.
Proof.
  eexists. split; [vm_compute; reflexivity|].
  split; [reflexivity|]. split; simpl; discriminate.
Qed.

(** C5, as the code has it.  In a sequence of two or more fragments no
    table of the result is empty; an empty fragment leaves the loop state
    as it was, so with fragments on both sides of it the result is that of
    the sequence without it. *)
Theorem empty_fragments_skipped (tables xs ys : list DataFrame) (e : DataFrame) :
  2 <= length tables ->
  empty e = true -> xs <> [] -> ys <> [] ->
  (forall out, merge_fragmented_tables tables = Ok out ->
               Forall (fun t => empty t = false) out) /\
  (forall st, merge_step st e = Ok st) /\
  merge_fragmented_tables (xs ++ e :: ys) = merge_fragmented_tables (xs ++ ys).
Proof.
  intros Hlen He Hxs Hys. split; [|split].
  - intros out. rewrite (merge_long _ Hlen).
    destruct (for_each merge_step tables ([], None)) as [st|x] eqn:H; simpl; [|discriminate].
    intros E; inversion E. apply finish_no_empty.
    apply (for_each_no_empty _ _ _ H). split; simpl; [constructor|exact I].
  - intros st. apply merge_step_skip. exact He.
  - assert (L1 : 2 <= length (xs ++ e :: ys)).
    { rewrite length_app. simpl. destruct xs; [contradiction|simpl; lia]. }
    assert (L2 : 2 <= length (xs ++ ys)).
    { rewrite length_app. destruct xs; [contradiction|]. destruct ys; [contradiction|].
      simpl. lia. }
    rewrite (merge_long _ L1), (merge_long _ L2), !for_each_app.
    destruct (for_each merge_step xs ([], None)) as [st|x]; simpl; [|reflexivity].
    rewrite (merge_step_skip st e He). reflexivity.
Qed.

Lemma empty_fragments_skipped_witness :
  2 <= length [page1; frame_no_rows; page2] /\
  empty frame_no_rows = true /\ [page1] <> [] /\ [page2] <> [] /\
  (exists out, merge_fragmented_tables [page1; frame_no_rows; page2] = Ok out /\
               Forall (fun t => empty t = false) out) /\
  (forall st, merge_step st frame_no_rows = Ok st) /\
  merge_fragmented_tables ([page1] ++ frame_no_rows :: [page2]) =
  merge_fragmented_tables ([page1] ++ [page2]).
Proof.
  split; [simpl; lia|]. split; [reflexivity|]. split; [discriminate|].
  split; [discriminate|].
  destruct (empty_fragments_skipped
              [page1; frame_no_rows; page2] [page1] [page2] frame_no_rows)
    as [Hout [Hskip Heq]]; [simpl; lia|reflexivity|discriminate|discriminate|].
  split; [|split; [exact Hskip|exact Heq]].
  eexists. split; [vm_compute; reflexivity|].
  apply Hout. vm_compute. reflexivity.
Defined.

(** C5, as the claim has it, fails: a sequence holding one fragment
    without rows comes back as it is, so the result holds that fragment. *)
Lemma single_empty_fragment_returned :
  empty frame_no_rows = true /\
  rows frame_no_rows = [] /\
  merge_fragmented_tables [frame_no_rows] = Ok [frame_no_rows].
Proof. repeat split. Qed.

(** C6.  One fragment comes back as the one table, unchanged; two
    non-empty fragments with the same headers give one table with those
    headers, whose rows are the first fragment's then the second's. *)
Theorem single_and_same_headers (t a b : DataFrame) :
  empty a = false -> empty b = false -> columns a = columns b ->
  merge_fragmented_tables [t] = Ok [t] /\
  merge_fragmented_tables [a; b] = Ok [mkFrame (columns a) (rows a ++ rows b)].
Proof.
  intros Ha Hb Hc. split; [reflexivity|].
  unfold merge_fragmented_tables. cbn [length Nat.leb for_each].
  rewrite (merge_step_open _ Ha). cbn [bind].
  unfold merge_step. rewrite Hb, <- Hc, labels_eqb_refl. cbn [bind].
  rewrite (concat_same_labels a b Hc). reflexivity.
Qed.

Lemma single_and_same_headers_witness :
  empty page1 = false /\ empty page2 = false /\ columns page1 = columns page2 /\
  merge_fragmented_tables [page3] = Ok [page3] /\
  merge_fragmented_tables [page1; page2] =
  Ok [mkFrame (columns page1) (rows page1 ++ rows page2)].
Proof.
  split; [reflexivity|]. split; [reflexivity|]. split; [reflexivity|].
  apply (single_and_same_headers page3 page1 page2); reflexivity.
Defined.

(** C10.  For two or more fragments, the tables returned hold as many
    rows in total as the non-empty fragments given (those whose
    [table.empty] is false); and tables are returned whenever no
    non-empty fragment repeats a header. *)
Theorem rows_conserved (tables : list DataFrame) :
  2 <= length tables ->
  (forall out, merge_fragmented_tables tables = Ok out ->
               total_rows out = total_rows (non_empty tables)) /\
  (Forall (fun t => empty t = false -> is_unique (columns t) = true) tables ->
   exists out, merge_fragmented_tables tables = Ok out).
Proof.
  intros Hlen. rewrite (merge_long _ Hlen). split.
  - intros out.
    destruct (for_each merge_step tables ([], None)) as [st|x] eqn:H; simpl; [|discriminate].
    intros E; inversion E.
    rewrite total_rows_finish, (for_each_rows _ _ _ H). reflexivity.
  - intros Hu. destruct (for_each_returns tables ([], None) I Hu) as [st ->].
    simpl. eexists; reflexivity.
Qed.

Lemma rows_conserved_witness :
  2 <= length [page1; page2; page3] /\
  Forall (fun t => empty t = false -> is_unique (columns t) = true) [page1; page2; page3] /\
  exists out,
    merge_fragmented_tables [page1; page2; page3] = Ok out /\
    total_rows out = total_rows (non_empty [page1; page2; page3]).
Proof.
  assert (Hlen : 2 <= length [page1; page2; page3]) by (simpl; lia).
  assert (Hu : Forall (fun t => empty t = false -> is_unique (columns t) = true)
                 [page1; page2; page3])
    by (repeat constructor).
  split; [exact Hlen|]. split; [exact Hu|].
  destruct (rows_conserved [page1; page2; page3] Hlen) as [Hrows Hret].
  destruct (Hret Hu) as [out Hout].
  exists out. split; [exact Hout|apply Hrows; exact Hout].
Defined.

(** The three-page run: two tables, of two rows and of one row. *)
Example three_pages :
  merge_fragmented_tables [page1; page2; page3] =
  Ok [mkFrame ["A"; "B"] [[CStr "a1"; CStr "b1"]; [CStr "a2"; CStr "b2"]]; page3].
Proof. vm_compute. reflexivity. Qed.

(** ** Header matching *)

Lemma prefix_append (p s : string) :
  String.prefix p s = true <-> exists b, s = (p ++ b)%string.
Proof.
  revert p. induction s as [|d s IH]; intros [|c p]; simpl.
  - split; [intros _; exists EmptyString; reflexivity|reflexivity].
  - split; [discriminate|intros [b H]; discriminate].
  - split; [intros _; exists (String d s); reflexivity|reflexivity].
  - destruct (ascii_dec c d) as [->|Hn].
    + rewrite IH. split; intros [b H]; exists b; [rewrite H; reflexivity|].
      inversion H. reflexivity.
    + split; [discriminate|]. intros [b H]. inversion H. congruence.
Qed.

(** [needle in hay]: the needle stands somewhere inside the hay. *)
Lemma contains_infix (needle hay : string) :
  contains needle hay = true <-> exists a b, hay = (a ++ needle ++ b)%string.
Proof.
  induction hay as [|c hay IH].
  - cbn [contains]. rewrite orb_false_r, prefix_append. split.
    + intros [b H]. exists EmptyString, b. exact H.
    + intros [a [b H]]. destruct a as [|x a]; [exists b; exact H|discriminate].
  - cbn [contains]. rewrite orb_true_iff, prefix_append, IH. split.
    + intros [[b H]|[a [b H]]].
      * exists EmptyString, b. exact H.
      * exists (String c a), b. simpl. rewrite H. reflexivity.
    + intros [a [b H]]. destruct a as [|x a].
      * left. exists b. exact H.
      * right. exists a, b. simpl in H. inversion H. reflexivity.
Qed.

Lemma matches_variant (variants : list string) (h : string) :
  matches variants h = true <->
  exists v a b, In v variants /\ h = (a ++ v ++ b)%string.
Proof.
  unfold matches. rewrite existsb_exists. split.
  - intros [v [Hv Hc]]. apply contains_infix in Hc. destruct Hc as [a [b H]].
    exists v, a, b. split; assumption.
  - intros [v [a [b [Hv H]]]]. exists v. split; [exact Hv|].
    apply contains_infix. exists a, b. exact H.
Qed.

(** The loop over the headers stops at the first one that matches. *)
Lemma find_column_first (variants cols : list string) :
  match find_column variants cols with
  | Some c =>
      exists before after,
        cols = before ++ c :: after /\
        matches variants c = true /\
        Forall (fun h => matches variants h = false) before
  | None => Forall (fun h => matches variants h = false) cols
  end.
Proof.
  induction cols as [|h cols IH]; simpl; [constructor|].
  destruct (matches variants h) eqn:E.
  - exists [], cols. repeat split; [exact E|constructor].
  - destruct (find_column variants cols) as [c|].
    + destruct IH as [before [after [H1 [H2 H3]]]].
      exists (h :: before), after. rewrite H1. repeat split; [exact H2|].
      constructor; assumption.
    + constructor; assumption.
Qed.

Lemma find_column_In (variants cols : list string) (c : string) :
  find_column variants cols = Some c -> In c cols /\ matches variants c = true.
Proof.
  intros H. pose proof (find_column_first variants cols) as F. rewrite H in F.
  destruct F as [before [after [-> [Hm _]]]]. split; [|exact Hm].
  apply in_or_app. right. left. reflexivity.
Qed.

(** A header found for one of the three fields is not the empty text,
    so the test [if col:] only asks whether a header was found. *)
Lemma found_is_truthy (variants cols : list string) (c : string) :
  In variants [sample_cols; ngul_cols; ratio_cols] ->
  find_column variants cols = Some c -> c <> EmptyString.
Proof.
  intros Hv H. apply find_column_In in H. destruct H as [_ Hm].
  intros ->. simpl in Hv.
  destruct Hv as [<-|[<-|[<-|[]]]]; vm_compute in Hm; discriminate.
Qed.

(** ** [extract_summary_data] in closed form *)

Lemma map_result_total {A B : Type} (f : A -> result B) (g : A -> B) (l : list A) :
  (forall x, f x = Ok (g x)) -> map_result f l = Ok (map g l).
Proof.
  intros H. induction l as [|x l IH]; simpl; [reflexivity|].
  rewrite H, IH. reflexivity.
Qed.

Lemma normalize_settled (c : cell) :
  normalize_cell (normalize_cell c) = normalize_cell c.
Proof.
  destruct c as [s|n|]; try reflexivity.
  destruct (convert_text_cases s) as [[x H]|[H|[t [H Ht]]]].
  - assert (E : normalize_cell (CStr s) = CNum x)
      by (unfold normalize_cell; rewrite H; reflexivity).
    rewrite E. reflexivity.
  - assert (E : normalize_cell (CStr s) = CStr s)
      by (unfold normalize_cell; rewrite H; reflexivity).
    rewrite E. exact E.
  - assert (E : normalize_cell (CStr s) = CStr t)
      by (unfold normalize_cell; rewrite H; reflexivity).
    rewrite E. unfold normalize_cell. rewrite (convert_no_comma t Ht). reflexivity.
Qed.

(** *** The conversion pass, column by column *)

Lemma lambda_normalize (x : cell) :
  (if is_text x then convert_swedish_number x else Ok x) = Ok (normalize_cell x).
Proof. destruct x as [t|n|]; [apply convert_normalize|reflexivity|reflexivity]. Qed.

Lemma apply_convert_eq (infer_string : bool) (cells : list cell) :
  apply_convert infer_string cells = Ok (map (column_function infer_string cells) cells).
Proof.
  unfold apply_convert.
  rewrite (map_result_total _ normalize_cell) by apply lambda_normalize.
  cbn [bind]. unfold infer_objects. f_equal.
  destruct (becomes_typed infer_string (map normalize_cell cells)) eqn:E.
  - rewrite map_map. apply map_ext. intros c. unfold column_function. rewrite E. reflexivity.
  - apply map_ext. intros c. unfold column_function. rewrite E. reflexivity.
Qed.

Lemma set_cell_update (j : nat) (g : cell -> cell) (row : list cell) :
  set_cell j (g (nth j row missing)) row = update_cell j g row.
Proof.
  revert j. induction row as [|x r IH]; intros j; [destruct j; reflexivity|].
  destruct j as [|j]; cbn [set_cell update_cell nth]; [reflexivity|].
  rewrite IH. reflexivity.
Qed.

Lemma set_column_update (j : nat) (g : cell -> cell) (rs : list (list cell)) :
  set_column j (map g (column_cells j rs)) rs = map (update_cell j g) rs.
Proof.
  unfold set_column, column_cells.
  induction rs as [|row rs IH]; [reflexivity|].
  cbn [map combine fst snd]. rewrite set_cell_update, IH. reflexivity.
Qed.

Lemma fix_columns_pure (infer_string : bool) (object_dtype : string -> bool)
    (j : nat) (labels : list string) (rs : list (list cell)) :
  fix_columns infer_string object_dtype j labels rs
  = Ok (fix_pure infer_string object_dtype j labels rs).
Proof.
  revert j rs. induction labels as [|col rest IH]; intros j rs; [reflexivity|].
  cbn [fix_columns fix_pure]. destruct (object_dtype col).
  - rewrite apply_convert_eq. cbn [bind]. rewrite set_column_update. apply IH.
  - cbn [bind]. apply IH.
Qed.

Lemma fix_swedish_numbers_unique (infer_string : bool) (object_dtype : string -> bool)
    (df : DataFrame) :
  is_unique (columns df) = true ->
  fix_swedish_numbers infer_string object_dtype df =
  Ok (mkFrame (columns df)
        (fix_pure infer_string object_dtype 0 (columns df) (rows df))).
Proof.
  intros H. unfold fix_swedish_numbers. rewrite H, fix_columns_pure. reflexivity.
Qed.

Lemma update_cell_length (j : nat) (g : cell -> cell) (row : list cell) :
  length (update_cell j g row) = length row.
Proof.
  revert j. induction row as [|x r IH]; intros j; [destruct j; reflexivity|].
  destruct j as [|j]; cbn [update_cell length]; [reflexivity|rewrite IH; reflexivity].
Qed.

Lemma fix_pure_lengths (infer_string : bool) (object_dtype : string -> bool)
    (j : nat) (labels : list string) (rs : list (list cell)) :
  map (@length cell) (fix_pure infer_string object_dtype j labels rs)
  = map (@length cell) rs.
Proof.
  revert j rs. induction labels as [|col rest IH]; intros j rs; [reflexivity|].
  cbn [fix_pure]. rewrite IH. destruct (object_dtype col); [|reflexivity].
  rewrite map_map. apply map_ext. intros row. apply update_cell_length.
Qed.

Lemma fix_pure_length (infer_string : bool) (object_dtype : string -> bool)
    (j : nat) (labels : list string) (rs : list (list cell)) :
  length (fix_pure infer_string object_dtype j labels rs) = length rs.
Proof.
  pose proof (fix_pure_lengths infer_string object_dtype j labels rs) as H.
  apply (f_equal (@length nat)) in H. rewrite !length_map in H. exact H.
Qed.

Lemma nth_update_same (j : nat) (g : cell -> cell) (row : list cell) :
  g missing = missing ->
  nth j (update_cell j g row) missing = g (nth j row missing).
Proof.
  intros Hg. revert j. induction row as [|x r IH]; intros j.
  - destruct j; cbn; symmetry; exact Hg.
  - destruct j as [|j]; cbn [update_cell nth]; [reflexivity|apply IH].
Qed.

Lemma nth_update_other (j k : nat) (g : cell -> cell) (row : list cell) :
  k <> j -> nth k (update_cell j g row) missing = nth k row missing.
Proof.
  revert j k. induction row as [|x r IH]; intros j k H; [destruct j; reflexivity|].
  destruct j as [|j], k as [|k]; cbn [update_cell nth]; try reflexivity.
  - contradiction.
  - apply IH. lia.
Qed.

Lemma column_function_missing (infer_string : bool) (cells : list cell) :
  column_function infer_string cells missing = missing.
Proof. unfold column_function. destruct (becomes_typed _ _); reflexivity. Qed.

Lemma column_cells_update_same (j : nat) (g : cell -> cell) (rs : list (list cell)) :
  g missing = missing ->
  column_cells j (map (update_cell j g) rs) = map g (column_cells j rs).
Proof.
  intros Hg. unfold column_cells. rewrite !map_map. apply map_ext.
  intros row. apply nth_update_same. exact Hg.
Qed.

Lemma column_cells_update_other (j k : nat) (g : cell -> cell) (rs : list (list cell)) :
  k <> j -> column_cells k (map (update_cell j g) rs) = column_cells k rs.
Proof.
  intros H. unfold column_cells. rewrite map_map. apply map_ext.
  intros row. apply nth_update_other. exact H.
Qed.

(** Column [k] after the pass: converted when its label is of dtype
    object, else as it was. *)
Lemma fix_pure_column (infer_string : bool) (object_dtype : string -> bool)
    (labels : list string) (j : nat) (rs : list (list cell)) (k : nat) :
  column_cells k (fix_pure infer_string object_dtype j labels rs) =
  match (if j <=? k then nth_error labels (k - j) else None) with
  | Some col =>
      if object_dtype col
      then map (column_function infer_string (column_cells k rs)) (column_cells k rs)
      else column_cells k rs
  | None => column_cells k rs
  end.
Proof.
  revert j rs. induction labels as [|col rest IH]; intros j rs.
  - cbn [fix_pure]. destruct (j <=? k); [destruct (k - j); reflexivity|reflexivity].
  - cbn [fix_pure]. rewrite IH. clear IH.
    set (rs1 := if object_dtype col
                then map (update_cell j (column_function infer_string (column_cells j rs))) rs
                else rs).
    destruct (Nat.eq_dec k j) as [->|Hkj].
    + assert (E : (S j <=? j) = false) by (apply Nat.leb_gt; lia).
      rewrite E, Nat.leb_refl, Nat.sub_diag. cbn [nth_error]. unfold rs1.
      destruct (object_dtype col); [|reflexivity].
      apply column_cells_update_same. apply column_function_missing.
    + assert (E1 : column_cells k rs1 = column_cells k rs).
      { unfold rs1. destruct (object_dtype col); [|reflexivity].
        apply column_cells_update_other. exact Hkj. }
      rewrite E1. destruct (S j <=? k) eqn:L1.
      * apply Nat.leb_le in L1.
        assert (L2 : (j <=? k) = true) by (apply Nat.leb_le; lia).
        rewrite L2. replace (k - j) with (S (k - S j)) by lia. reflexivity.
      * apply Nat.leb_gt in L1.
        assert (L2 : (j <=? k) = false) by (apply Nat.leb_gt; lia).
        rewrite L2. reflexivity.
Qed.

Lemma none_to_nan_settled (c : cell) :
  normalize_cell (none_to_nan (normalize_cell c)) = none_to_nan (normalize_cell c) /\
  none_to_nan (none_to_nan (normalize_cell c)) = none_to_nan (normalize_cell c).
Proof.
  pose proof (normalize_settled c) as H.
  destruct (normalize_cell c) as [t|n|]; cbn [none_to_nan]; split;
    try exact H; reflexivity.
Qed.

(** A converted column is left as it is by a second conversion. *)
Lemma column_function_settles (infer_string : bool) (cells : list cell) :
  settled infer_string (map (column_function infer_string cells) cells).
Proof.
  intros x Hx. apply in_map_iff in Hx. destruct Hx as [c [<- _]].
  unfold column_function at 1 3 4.
  destruct (becomes_typed infer_string (map normalize_cell cells)) eqn:D.
  - assert (E : map normalize_cell (map (column_function infer_string cells) cells)
                = map (fun c => none_to_nan (normalize_cell c)) cells).
    { rewrite map_map. apply map_ext. intros y. unfold column_function. rewrite D.
      apply none_to_nan_settled. }
    destruct (none_to_nan_settled c) as [H1 H2]. rewrite H1, H2.
    match goal with |- (if ?b then _ else _) = _ => destruct b end; reflexivity.
  - assert (E : map normalize_cell (map (column_function infer_string cells) cells)
                = map normalize_cell cells).
    { rewrite map_map. apply map_ext. intros y. unfold column_function. rewrite D.
      apply normalize_settled. }
    rewrite E, D. apply normalize_settled.
Qed.

Lemma update_cell_fixed (j : nat) (g : cell -> cell) (row : list cell) :
  g (nth j row missing) = nth j row missing -> update_cell j g row = row.
Proof.
  revert j. induction row as [|x r IH]; intros j H; [destruct j; reflexivity|].
  destruct j as [|j]; cbn [update_cell nth] in *; [rewrite H; reflexivity|].
  rewrite (IH j H). reflexivity.
Qed.

Lemma update_settled (infer_string : bool) (j : nat) (rs : list (list cell)) :
  settled infer_string (column_cells j rs) ->
  map (update_cell j (column_function infer_string (column_cells j rs))) rs = rs.
Proof.
  intros H. rewrite <- (map_id rs) at 3. apply map_ext_in. intros row Hr.
  apply update_cell_fixed. apply H. unfold column_cells.
  apply in_map_iff. exists row. split; [reflexivity|exact Hr].
Qed.

Lemma fix_pure_settled (infer_string : bool) (object_dtype : string -> bool)
    (labels : list string) (j : nat) (rs : list (list cell)) :
  (forall i col, nth_error labels i = Some col -> object_dtype col = true ->
                 settled infer_string (column_cells (j + i) rs)) ->
  fix_pure infer_string object_dtype j labels rs = rs.
Proof.
  revert j. induction labels as [|col rest IH]; intros j H; [reflexivity|].
  cbn [fix_pure].
  assert (E : (if object_dtype col
               then map (update_cell j (column_function infer_string (column_cells j rs))) rs
               else rs) = rs).
  { destruct (object_dtype col) eqn:Hc; [|reflexivity].
    apply update_settled. specialize (H 0 col eq_refl Hc).
    rewrite Nat.add_0_r in H. exact H. }
  rewrite E. apply IH. intros i c Hi Hc.
  specialize (H (S i) c Hi Hc). replace (S j + i) with (j + S i) by lia. exact H.
Qed.

Lemma fix_pure_idempotent (infer_string : bool)
    (object_dtype later_dtype : string -> bool)
    (labels : list string) (rs : list (list cell)) :
  (forall c, later_dtype c = true -> object_dtype c = true) ->
  fix_pure infer_string later_dtype 0 labels
    (fix_pure infer_string object_dtype 0 labels rs)
  = fix_pure infer_string object_dtype 0 labels rs.
Proof.
  intros Hsub. apply fix_pure_settled. intros i col Hi Hc. cbn [Nat.add].
  rewrite fix_pure_column. cbn [Nat.leb]. rewrite Nat.sub_0_r, Hi, (Hsub _ Hc).
  apply column_function_settles.
Qed.

Lemma select_single (table : DataFrame) (f : string * string) :
  single_column table f ->
  select table (snd f) = Ok (map (fun row => cell_under table row f) (rows table)).
Proof.
  intros [i H]. unfold select, cell_under, first_position. rewrite H. reflexivity.
Qed.

Lemma select_inv (table : DataFrame) (f : string * string) (series : list cell) :
  select table (snd f) = Ok series -> single_column table f.
Proof.
  unfold select, single_column.
  destruct (positions (snd f) (columns table)) as [|i [|j l]]; try discriminate.
  intros _. exists i. reflexivity.
Qed.

Lemma combine_map {A B C : Type} (f : A -> B) (g : A -> C) (l : list A) :
  combine (map f l) (map g l) = map (fun x => (f x, g x)) l.
Proof. induction l as [|x l IH]; simpl; [reflexivity|rewrite IH; reflexivity]. Qed.

(** One more column assigned to the frame built so far. *)
Lemma assign_project (table : DataFrame) (fs : list (string * string)) (f : string * string) :
  assign (project table fs) (fst f) (map (fun row => cell_under table row f) (rows table))
  = project table (fs ++ [f]).
Proof.
  unfold assign, project. cbn [columns rows]. rewrite map_app. cbn [map]. f_equal.
  destruct fs as [|f0 fs].
  - cbn. rewrite map_map. reflexivity.
  - cbn [app]. destruct (rows table) as [|row0 rs]; [reflexivity|].
    cbn [map combine fst snd]. f_equal.
    + rewrite map_app. reflexivity.
    + rewrite combine_map, map_map. cbn [fst snd].
      apply map_ext. intros row. rewrite map_app. reflexivity.
Qed.

Lemma copy_fields_project (table : DataFrame) (fs0 fs : list (string * string)) :
  Forall (single_column table) fs ->
  copy_fields table fs (project table fs0) = Ok (project table (fs0 ++ fs)).
Proof.
  revert fs0. induction fs as [|f fs IH]; intros fs0 H; simpl.
  - rewrite app_nil_r. reflexivity.
  - inversion H as [|? ? Hf Hr]; subst.
    rewrite (select_single _ _ Hf). simpl.
    rewrite assign_project, (IH _ Hr), <- app_assoc. reflexivity.
Qed.

Lemma copy_fields_inv (table : DataFrame) (fs : list (string * string)) (ex ex' : DataFrame) :
  copy_fields table fs ex = Ok ex' -> Forall (single_column table) fs.
Proof.
  revert ex. induction fs as [|f fs IH]; intros ex; simpl; [constructor|].
  destruct (select table (snd f)) as [series|e] eqn:Hs; simpl; [|discriminate].
  intros H. constructor; [apply (select_inv _ _ _ Hs)|apply (IH _ H)].
Qed.

Lemma bind_assoc {A B C : Type} (m : result A) (k : A -> result B) (k' : B -> result C) :
  bind (bind m k) k' = bind m (fun x => bind (k x) k').
Proof. destruct m; reflexivity. Qed.

Lemma copy_column_pick (table : DataFrame) (variants : list string) (label : string)
    (extracted : DataFrame) :
  In variants [sample_cols; ngul_cols; ratio_cols] ->
  copy_column table (find_column variants (columns table)) label extracted =
  copy_fields table (pick label (find_column variants (columns table))) extracted.
Proof.
  intros Hv. destruct (find_column variants (columns table)) as [c|] eqn:E; [|reflexivity].
  pose proof (found_is_truthy _ _ _ Hv E) as Hc.
  destruct c as [|a c]; [contradiction|]. simpl.
  destruct (select table (String a c)); reflexivity.
Qed.

Lemma copy_fields_app (table : DataFrame) (fs gs : list (string * string)) (ex : DataFrame) :
  copy_fields table (fs ++ gs) ex = (ex' <- copy_fields table fs ex ;; copy_fields table gs ex').
Proof.
  revert ex. induction fs as [|f fs IH]; intros ex; simpl; [reflexivity|].
  destruct (select table (snd f)); simpl; [apply IH|reflexivity].
Qed.

(** The three guarded assignments are one pass over the resolved fields. *)
Lemma extract_by_fields (infer_string : bool) (object_dtype : string -> bool)
    (table : DataFrame) (source_file : string) :
  extract_summary_data infer_string object_dtype table source_file =
  (extracted <- copy_fields table (resolved_fields table) new_frame ;;
   extracted <-
     (if negb (empty extracted)
      then fix_swedish_numbers infer_string
             (extracted_dtype infer_string object_dtype
                (find_column sample_cols (columns table))
                (find_column ngul_cols (columns table))
                (find_column ratio_cols (columns table)))
             (insert_first extracted "Source File" (CStr source_file))
      else Ok extracted) ;;
   Ok (if negb (empty extracted) then Some extracted else None)).
Proof.
  unfold extract_summary_data, resolved_fields.
  rewrite copy_fields_app, bind_assoc.
  rewrite (copy_column_pick table sample_cols); [|simpl; auto].
  destruct (copy_fields table (pick "Sample" _) new_frame) as [e1|x];
    cbn [bind]; [|reflexivity].
  rewrite copy_fields_app, bind_assoc.
  rewrite (copy_column_pick table ngul_cols); [|simpl; auto].
  destruct (copy_fields table (pick "ng/ul" _) e1) as [e2|x];
    cbn [bind]; [|reflexivity].
  rewrite (copy_column_pick table ratio_cols); [|simpl; auto].
  reflexivity.
Qed.

Lemma resolved_labels_unique (table : DataFrame) :
  is_unique ("Source File" :: map fst (resolved_fields table)) = true.
Proof.
  unfold resolved_fields.
  destruct (find_column sample_cols (columns table));
    destruct (find_column ngul_cols (columns table));
    destruct (find_column ratio_cols (columns table)); reflexivity.
Qed.

Lemma project_empty (table : DataFrame) (fs : list (string * string)) :
  empty (project table fs) = true <-> fs = [] \/ rows table = [].
Proof.
  unfold empty, project. cbn [columns rows].
  destruct fs as [|f fs]; [simpl; split; auto|].
  rewrite length_map. destruct (rows table) as [|row rs]; simpl.
  - split; auto.
  - split; [discriminate|intros [H|H]; discriminate].
Qed.

(** What [extract_summary_data] returns, case by case. *)
Lemma extract_summary_data_spec (infer_string : bool) (object_dtype : string -> bool)
    (table : DataFrame) (source_file : string) :
  (resolved_fields table = [] \/ rows table = [] ->
   Forall (single_column table) (resolved_fields table) ->
   extract_summary_data infer_string object_dtype table source_file = Ok None) /\
  (resolved_fields table <> [] -> rows table <> [] ->
   Forall (single_column table) (resolved_fields table) ->
   extract_summary_data infer_string object_dtype table source_file
   = Ok (Some (summary infer_string object_dtype table source_file))) /\
  (forall r, extract_summary_data infer_string object_dtype table source_file = Ok r ->
             Forall (single_column table) (resolved_fields table)).
Proof.
  rewrite extract_by_fields.
  change new_frame with (project table []).
  split; [|split].
  - intros He Hs. rewrite (copy_fields_project _ _ _ Hs). cbn [app bind].
    apply project_empty in He. rewrite He. cbn. rewrite He. reflexivity.
  - intros Hf Hr Hs. rewrite (copy_fields_project _ _ _ Hs). cbn [app bind].
    destruct (empty (project table (resolved_fields table))) eqn:He.
    { apply project_empty in He. destruct He; contradiction. }
    cbn [negb]. rewrite fix_swedish_numbers_unique
      by (cbn [insert_first columns]; apply resolved_labels_unique).
    cbn [bind].
    assert (E : forall od,
               mkFrame (columns (insert_first (project table (resolved_fields table))
                                   "Source File" (CStr source_file)))
                 (fix_pure infer_string od 0
                    (columns (insert_first (project table (resolved_fields table))
                                "Source File" (CStr source_file)))
                    (rows (insert_first (project table (resolved_fields table))
                             "Source File" (CStr source_file))))
               = mkFrame ("Source File" :: map fst (resolved_fields table))
                   (fix_pure infer_string od 0
                      ("Source File" :: map fst (resolved_fields table))
                      (map (fun row =>
                              CStr source_file ::
                              map (cell_under table row) (resolved_fields table))
                         (rows table)))).
    { intros od. unfold insert_first, project. cbn [columns rows]. do 2 f_equal.
      destruct (resolved_fields table) as [|f fs]; [contradiction|].
      rewrite !map_map. reflexivity. }
    rewrite E. fold (summary infer_string object_dtype table source_file).
    assert (Hn : empty (summary infer_string object_dtype table source_file) = false).
    { apply empty_false. unfold summary. cbn [columns rows]. split; [discriminate|].
      intros Hnil. apply (f_equal (@length (list cell))) in Hnil.
      rewrite fix_pure_length, length_map in Hnil.
      destruct (rows table); [contradiction|discriminate]. }
    rewrite Hn. reflexivity.
  - intros r.
    destruct (copy_fields table (resolved_fields table) (project table [])) as [ex|x] eqn:H;
      [|discriminate].
    intros _. apply (copy_fields_inv _ _ _ _ H).
Qed.

Lemma resolves_fields (table : DataFrame) :
  resolves table <-> resolved_fields table <> [].
Proof.
  unfold resolves, resolved_fields.
  destruct (find_column sample_cols (columns table));
    destruct (find_column ngul_cols (columns table));
    destruct (find_column ratio_cols (columns table)); simpl;
    split; try discriminate; try tauto;
    intros _; try (left; discriminate); try (right; left; discriminate);
    right; right; discriminate.
Qed.

Lemma find_column_none (variants cols : list string) :
  (forall h, In h cols -> matches variants h = false) ->
  find_column variants cols = None.
Proof.
  induction cols as [|h cols IH]; simpl; intros H; [reflexivity|].
  rewrite (H h (or_introl eq_refl)). apply IH. intros h' Hh. apply H. right. exact Hh.
Qed.

Lemma extract_some_inv (infer_string : bool) (object_dtype : string -> bool)
    (table : DataFrame) (source_file : string) (r : DataFrame) :
  extract_summary_data infer_string object_dtype table source_file = Ok (Some r) ->
  resolved_fields table <> [] /\ rows table <> [] /\
  Forall (single_column table) (resolved_fields table) /\
  r = summary infer_string object_dtype table source_file.
Proof.
  intros H.
  destruct (extract_summary_data_spec infer_string object_dtype table source_file)
    as [Hnone [Hsome Hsingle]].
  pose proof (Hsingle _ H) as Hs.
  assert (Hf : resolved_fields table <> []).
  { intros E. rewrite (Hnone (or_introl E) Hs) in H. discriminate. }
  assert (Hr : rows table <> []).
  { intros E. rewrite (Hnone (or_intror E) Hs) in H. discriminate. }
  repeat split; try assumption.
  rewrite (Hsome Hf Hr Hs) in H. inversion H. reflexivity.
Qed.

(** ** Claims on [extract_summary_data] *)

(** C7.  When the text columns of the table are not of dtype object but
    of the pandas string dtype (what pandas builds from pandas 3 on, with
    [infer_string]), the example table under the label "doc1" gives the
    summary with the concentration as the text "4,141": the test at line
    25 passes over every column whose dtype is not object, against the
    comment beside it.  With the columns of dtype object it gives the
    number 4.141.  In both cases the header found for a list of variants
    is the first, left to right, that has a variant inside it. *)
Theorem string_dtype_left_unconverted (variants cols : list string) :
  extract_summary_data true no_object sample_table "doc1" =
    Ok (Some (mkFrame ["Source File"; "Sample"; "ng/ul"]
                [[CStr "doc1"; CStr "S1"; CStr "4,141"]])) /\
  extract_summary_data false all_object sample_table "doc1" =
    Ok (Some (mkFrame ["Source File"; "Sample"; "ng/ul"]
                [[CStr "doc1"; CStr "S1"; CNum (Finite (Qmake 4141 1000))]])) /\
  match find_column variants cols with
  | Some c =>
      exists before after,
        cols = before ++ c :: after /\
        matches variants c = true /\
        Forall (fun h => matches variants h = false) before
  | None => Forall (fun h => matches variants h = false) cols
  end /\
  (forall h, matches variants h = true <->
             exists v a b, In v variants /\ h = (a ++ v ++ b)%string).
Proof.
  split; [vm_compute; reflexivity|].
  split; [vm_compute; reflexivity|].
  split; [apply find_column_first|].
  intros h. apply matches_variant.
Qed.

(** C8, as the code has it.  A summary is returned exactly when a field
    found a header, the table has a row, and each header found labels one
    column only; with no header matching any variant nothing is returned
    and nothing is raised; a summary returned has the source column and
    the columns of the fields found, no other.  This holds whatever the
    dtypes of the columns are. *)
Theorem summary_returned_iff (infer_string : bool) (object_dtype : string -> bool)
    (table : DataFrame) (source_file : string) :
  ((exists r, extract_summary_data infer_string object_dtype table source_file
              = Ok (Some r)) <->
   resolves table /\ rows table <> [] /\
   Forall (single_column table) (resolved_fields table)) /\
  ((forall h, In h (columns table) ->
              matches sample_cols h = false /\
              matches ngul_cols h = false /\
              matches ratio_cols h = false) ->
   extract_summary_data infer_string object_dtype table source_file = Ok None) /\
  (forall r, extract_summary_data infer_string object_dtype table source_file
             = Ok (Some r) ->
             columns r = "Source File" :: map fst (resolved_fields table)).
Proof.
  destruct (extract_summary_data_spec infer_string object_dtype table source_file)
    as [Hnone [Hsome _]].
  split; [split|split].
  - intros [r H]. destruct (extract_some_inv _ _ _ _ _ H) as [Hf [Hr [Hs _]]].
    split; [apply resolves_fields; exact Hf|split; assumption].
  - intros [Hf [Hr Hs]]. apply resolves_fields in Hf.
    exists (summary infer_string object_dtype table source_file). apply Hsome; assumption.
  - intros H.
    assert (E : resolved_fields table = []).
    { unfold resolved_fields.
      rewrite !find_column_none; [reflexivity| | |]; intros h Hh; apply (H h Hh). }
    apply Hnone; [left; exact E|rewrite E; constructor].
  - intros r H. destruct (extract_some_inv _ _ _ _ _ H) as [_ [_ [_ ->]]]. reflexivity.
Qed.

(** C8, as the claim has it, fails: the table with the header "Sample"
    and no rows resolves the sample field, and no summary is returned. *)
Lemma header_only_table_yields_nothing :
  find_column sample_cols (columns frame_no_rows) = Some "Sample" /\
  resolves frame_no_rows /\
  extract_summary_data false all_object frame_no_rows "doc1" = Ok None.
Proof.
  split; [reflexivity|]. split; [left; discriminate|vm_compute; reflexivity].
Qed.

Lemma summary_returned_iff_witness :
  resolves sample_table /\ rows sample_table <> [] /\
  Forall (single_column sample_table) (resolved_fields sample_table) /\
  exists r,
    extract_summary_data false all_object sample_table "doc1" = Ok (Some r) /\
    columns r = "Source File" :: map fst (resolved_fields sample_table).
Proof.
  assert (H1 : resolves sample_table) by (left; discriminate).
  assert (H2 : rows sample_table <> []) by discriminate.
  assert (H3 : Forall (single_column sample_table) (resolved_fields sample_table)).
  { constructor; [exists 0; reflexivity|].
    constructor; [exists 1; reflexivity|constructor]. }
  split; [exact H1|]. split; [exact H2|]. split; [exact H3|].
  destruct (summary_returned_iff false all_object sample_table "doc1")
    as [[_ Hback] [_ Hcols]].
  destruct (Hback (conj H1 (conj H2 H3))) as [r Hr].
  exists r. split; [exact Hr|apply Hcols; exact Hr].
Defined.

(** * Further properties *)

(** ** Digits *)

Lemma digit_cases (c : ascii) :
  is_digit c = true ->
  In c ["0"; "1"; "2"; "3"; "4"; "5"; "6"; "7"; "8"; "9"]%char.
Proof.
  destruct c as [[] [] [] [] [] [] [] []]; vm_compute; intros H;
    try discriminate; tauto.
Qed.

Ltac digit_case c H :=
  let D := fresh "D" in
  pose proof (digit_cases c H) as D; simpl in D;
  repeat (destruct D as [D|D]; [subst c|]); [..|contradiction].

Lemma digit_plain (c : ascii) :
  is_digit c = true ->
  to_ascii_space c = c /\ Ascii.eqb "_" c = false /\ Ascii.eqb c "_" = false /\
  is_space c = false /\ Ascii.eqb c comma = false /\ Ascii.eqb c period = false /\
  parse_sign [c] = (false, [c]).
Proof. intros H. digit_case c H; vm_compute; repeat split. Qed.

Lemma parse_sign_digit (c : ascii) (l : list ascii) :
  is_digit c = true -> parse_sign (c :: l) = (false, c :: l).
Proof. intros H. digit_case c H; reflexivity. Qed.

Lemma list_of_append (a b : string) :
  list_ascii_of_string (a ++ b) = list_ascii_of_string a ++ list_ascii_of_string b.
Proof. induction a as [|c a IH]; simpl; [reflexivity|rewrite IH; reflexivity]. Qed.

Lemma all_digits_forallb (s : string) :
  all_digits s = forallb is_digit (list_ascii_of_string s).
Proof. induction s as [|c s IH]; simpl; [reflexivity|rewrite IH; reflexivity]. Qed.

Lemma skip_digits_append (a : string) (sep : ascii) (r : string) :
  all_digits a = true -> is_digit sep = false ->
  skip_digits (a ++ String sep r) = String sep r.
Proof.
  intros Ha Hs. induction a as [|c a IH]; simpl in *.
  - rewrite Hs. reflexivity.
  - apply andb_true_iff in Ha. destruct Ha as [Hc Ha]. rewrite Hc. apply IH. exact Ha.
Qed.

Lemma count_digits (sep : ascii) (a : string) :
  is_digit sep = false -> all_digits a = true -> count sep a = 0.
Proof.
  intros Hs. induction a as [|c a IH]; simpl; [reflexivity|].
  intros H. apply andb_true_iff in H. destruct H as [Hc Ha].
  destruct (Ascii.eqb c sep) eqn:E; [|apply IH; exact Ha].
  apply Ascii.eqb_eq in E. subst c. congruence.
Qed.

Lemma replace_digits (a : string) :
  all_digits a = true -> replace comma period a = a.
Proof.
  induction a as [|c a IH]; simpl; [reflexivity|].
  intros H. apply andb_true_iff in H. destruct H as [Hc Ha].
  destruct (digit_plain c Hc) as [_ [_ [_ [_ [E _]]]]]. rewrite E, (IH Ha). reflexivity.
Qed.

Lemma replace_append (x y : ascii) (a b : string) :
  replace x y (a ++ b) = (replace x y a ++ replace x y b)%string.
Proof. induction a as [|c a IH]; simpl; [reflexivity|rewrite IH; reflexivity]. Qed.

Lemma span_digits (l r : list ascii) :
  forallb is_digit l = true ->
  match r with [] => True | c :: _ => is_digit c = false end ->
  span is_digit (l ++ r) = (l, r).
Proof.
  intros Hl Hr. induction l as [|c l IH]; simpl in *.
  - destruct r as [|c r]; [reflexivity|]. simpl. rewrite Hr. reflexivity.
  - apply andb_true_iff in Hl. destruct Hl as [Hc Hl]. rewrite Hc, (IH Hl). reflexivity.
Qed.

Lemma map_digits (l : list ascii) :
  forallb is_digit l = true -> map to_ascii_space l = l.
Proof.
  induction l as [|c l IH]; simpl; [reflexivity|].
  intros H. apply andb_true_iff in H. destruct H as [Hc Hl].
  destruct (digit_plain c Hc) as [E _]. rewrite E, (IH Hl). reflexivity.
Qed.

Lemma no_underscore_digits (l : list ascii) :
  forallb is_digit l = true ->
  existsb (Ascii.eqb "_") l = false /\
  filter (fun c => negb (Ascii.eqb c "_")) l = l.
Proof.
  induction l as [|c l IH]; cbn [forallb existsb filter]; [split; reflexivity|].
  intros H. apply andb_true_iff in H. destruct H as [Hc Hl].
  destruct (digit_plain c Hc) as [_ [E1 [E2 _]]]. destruct (IH Hl) as [I1 I2].
  rewrite E1, E2, I1, I2. split; reflexivity.
Qed.

(** [float] on digits, a period, digits: the decimal reading. *)
Lemma py_float_decimal (a c : string) :
  a <> EmptyString -> c <> EmptyString ->
  all_digits a = true -> all_digits c = true ->
  py_float (a ++ String period c) =
  Ok (decimal false (digits_value (list_ascii_of_string (a ++ c)))
        (0 - Z.of_nat (String.length c))).
Proof.
  intros Hna Hnc Ha Hc.
  rewrite all_digits_forallb in Ha, Hc.
  unfold py_float. rewrite !list_of_append. cbn [list_ascii_of_string].
  set (la := list_ascii_of_string a) in *. set (lc := list_ascii_of_string c) in *.
  assert (Hlen : length lc = String.length c).
  { unfold lc. clear. induction c as [|x c IH]; simpl; [reflexivity|rewrite IH; reflexivity]. }
  assert (Hla : la <> []) by (unfold la; destruct a; [contradiction|discriminate]).
  assert (Hlc : lc <> []) by (unfold lc; destruct c; [contradiction|discriminate]).
  rewrite map_app. cbn [map]. rewrite (map_digits _ Ha), (map_digits _ Hc).
  change (to_ascii_space period) with period.
  destruct (no_underscore_digits _ Ha) as [Ua Fa].
  destruct (no_underscore_digits _ Hc) as [Uc Fc].
  rewrite existsb_app. cbn [existsb]. rewrite Ua, Uc. cbn [orb andb].
  change (Ascii.eqb "_" period) with false. cbn [orb].
  rewrite filter_app. cbn [filter]. change (negb (Ascii.eqb period "_")) with true.
  cbn iota. rewrite Fa, Fc.
  assert (Hfront : drop_while is_space (la ++ period :: lc) = la ++ period :: lc).
  { destruct la as [|x la]; [contradiction|]. simpl in Ha.
    apply andb_true_iff in Ha. destruct Ha as [Hx _].
    destruct (digit_plain x Hx) as [_ [_ [_ [E _]]]]. simpl. rewrite E. reflexivity. }
  rewrite Hfront.
  assert (Hback : drop_while is_space (rev (la ++ period :: lc)) = rev (la ++ period :: lc)).
  { change (period :: lc) with ([period] ++ lc). rewrite !rev_app_distr.
    destruct (rev lc) as [|x rl] eqn:E.
    - apply (f_equal (@rev ascii)) in E. rewrite rev_involutive in E. contradiction.
    - assert (Hx : is_digit x = true).
      { assert (Hin : In x lc) by (apply in_rev; rewrite E; left; reflexivity).
        rewrite forallb_forall in Hc. apply Hc. exact Hin. }
      destruct (digit_plain x Hx) as [_ [_ [_ [Es _]]]]. simpl. rewrite Es. reflexivity. }
  rewrite Hback, rev_involutive.
  assert (Hsign : parse_sign (la ++ period :: lc) = (false, la ++ period :: lc)).
  { destruct la as [|x la]; [contradiction|]. simpl in Ha.
    apply andb_true_iff in Ha. destruct Ha as [Hx _]. apply parse_sign_digit. exact Hx. }
  rewrite Hsign. unfold parse_decimal.
  rewrite (span_digits la (period :: lc) Ha) by reflexivity.
  pose proof (span_digits lc [] Hc I) as Hs. rewrite app_nil_r in Hs. rewrite Hs.
  unfold period. cbn beta iota. cbn [andb parse_exponent].
  destruct (la ++ lc) as [|x l] eqn:E.
  { destruct la; [contradiction|discriminate]. }
  rewrite Hlen. reflexivity.
Qed.

(** ** More on [convert_swedish_number] *)

Lemma split_append (sep : ascii) (a r : string) :
  count sep a = 0 -> split sep (a ++ String sep r) = a :: split sep r.
Proof.
  induction a as [|x a IH]; simpl; intros H.
  - rewrite Ascii.eqb_refl. reflexivity.
  - destruct (Ascii.eqb x sep); [discriminate|]. rewrite (IH H). reflexivity.
Qed.

Lemma split_none (sep : ascii) (s : string) :
  count sep s = 0 -> split sep s = [s].
Proof.
  induction s as [|x s IH]; simpl; intros H; [reflexivity|].
  destruct (Ascii.eqb x sep); [discriminate|]. rewrite (IH H). reflexivity.
Qed.

Lemma re_match_digits (a r : string) (sep d : ascii) :
  a <> EmptyString -> all_digits a = true ->
  Ascii.eqb sep comma || Ascii.eqb sep period = true -> is_digit d = true ->
  re_match_number (a ++ String sep (String d r)) = true.
Proof.
  intros Hn Ha Hs Hd. destruct a as [|x a]; [contradiction|].
  simpl in Ha. apply andb_true_iff in Ha. destruct Ha as [Hx Ha].
  cbn [append re_match_number]. rewrite Hx.
  assert (Hsep : is_digit sep = false).
  { apply orb_true_iff in Hs. destruct Hs as [E|E]; apply Ascii.eqb_eq in E; subst; reflexivity. }
  rewrite (skip_digits_append a sep _ Ha Hsep), Hs, Hd. reflexivity.
Qed.

(** X1.  A text becomes a number only when it starts with digits, a
    separator and a digit, and holds exactly one comma and at most one
    period. *)
Theorem converted_only_with_one_comma (s : string) (x : number) :
  convert_swedish_number (CStr s) = Ok (CNum x) ->
  re_match_number s = true /\ count comma s = 1 /\
  (count period s = 0 \/ count period s = 1).
Proof.
  rewrite convert_text.
  destruct (re_match_number s); [|discriminate].
  destruct ((count comma s =? 1) && (count period s =? 0)) eqn:E1.
  { apply andb_true_iff in E1. destruct E1 as [Hc Hp].
    apply Nat.eqb_eq in Hc, Hp. intros _. repeat split; [exact Hc|left; exact Hp]. }
  destruct ((count comma s =? 1) && (count period s =? 1)) eqn:E2; [|discriminate].
  apply andb_true_iff in E2. destruct E2 as [Hc Hp].
  apply Nat.eqb_eq in Hc, Hp. intros _. repeat split; [exact Hc|right; exact Hp].
Qed.

Lemma converted_only_with_one_comma_witness :
  convert_swedish_number (CStr "4,141") = Ok (CNum (Finite (Qmake 4141 1000))) /\
  re_match_number "4,141" = true /\ count comma "4,141" = 1 /\
  (count period "4,141" = 0 \/ count period "4,141" = 1).
Proof.
  split; [vm_compute; reflexivity|].
  apply (converted_only_with_one_comma "4,141" (Finite (Qmake 4141 1000))).
  vm_compute. reflexivity.
Defined.

(** X2.  Digits, a comma, digits: the text becomes a number, the one
    [float] reads from the same digits with a period for the comma. *)
Theorem comma_decimal_converted (a c : string) :
  a <> EmptyString -> c <> EmptyString ->
  all_digits a = true -> all_digits c = true ->
  exists x : number,
    py_float (a ++ String period c) = Ok x /\
    convert_swedish_number (CStr (a ++ String comma c)) = Ok (CNum x).
Proof.
  intros Hna Hnc Ha Hc.
  pose proof (py_float_decimal a c Hna Hnc Ha Hc) as Hf.
  eexists. split; [exact Hf|]. rewrite convert_text.
  assert (Hm : re_match_number (a ++ String comma c) = true).
  { destruct c as [|d c']; [contradiction|].
    apply re_match_digits; try assumption; [reflexivity|].
    simpl in Hc. apply andb_true_iff in Hc. tauto. }
  assert (Hcc : count comma (a ++ String comma c) = 1).
  { rewrite count_append. cbn [count]. rewrite Ascii.eqb_refl.
    rewrite (count_digits comma a eq_refl Ha), (count_digits comma c eq_refl Hc).
    reflexivity. }
  assert (Hcp : count period (a ++ String comma c) = 0).
  { rewrite count_append. cbn [count]. change (Ascii.eqb comma period) with false.
    cbv iota. rewrite (count_digits period a eq_refl Ha), (count_digits period c eq_refl Hc).
    reflexivity. }
  rewrite Hm, Hcc, Hcp. cbn [Nat.eqb andb].
  rewrite replace_append. cbn [replace]. rewrite Ascii.eqb_refl.
  rewrite (replace_digits a Ha), (replace_digits c Hc).
  unfold float_or. rewrite Hf. reflexivity.
Qed.

Lemma comma_decimal_converted_witness :
  "4" <> EmptyString /\ "141" <> EmptyString /\
  all_digits "4" = true /\ all_digits "141" = true /\
  exists x : number,
    py_float ("4" ++ String period "141") = Ok x /\
    convert_swedish_number (CStr ("4" ++ String comma "141")) = Ok (CNum x).
Proof.
  split; [discriminate|]. split; [discriminate|]. split; [reflexivity|].
  split; [reflexivity|].
  apply (comma_decimal_converted "4" "141"); [discriminate|discriminate|reflexivity|reflexivity].
Defined.

Lemma rewrite_middle (a c : string) (b : ascii) (s1 s2 : ascii) :
  (s1 = comma \/ s1 = period) -> (s2 = comma \/ s2 = period) ->
  all_digits a = true -> is_digit b = true -> all_digits c = true ->
  rewrite_two_separators (a ++ String s1 (String b (String s2 c))) =
  (a ++ String period c)%string.
Proof.
  intros H1 H2 Ha Hb Hc. unfold rewrite_two_separators.
  assert (E : replace comma period (a ++ String s1 (String b (String s2 c)))
              = (a ++ String period (String b (String period c)))%string).
  { rewrite replace_append, (replace_digits a Ha). cbn [replace].
    rewrite (replace_digits c Hc).
    destruct (digit_plain b Hb) as [_ [_ [_ [_ [Eb _]]]]]. rewrite Eb.
    destruct H1 as [-> | ->], H2 as [-> | ->]; reflexivity. }
  rewrite E.
  rewrite (split_append period a _ (count_digits period a eq_refl Ha)).
  change (String b (String period c)) with (String b EmptyString ++ String period c)%string.
  rewrite (split_append period (String b EmptyString)).
  - rewrite (split_none period c (count_digits period c eq_refl Hc)). reflexivity.
  - simpl. destruct (digit_plain b Hb) as [_ [_ [_ [_ [_ [Eb _]]]]]]. rewrite Eb. reflexivity.
Qed.

(** X3.  Digits, a separator, one digit, the other separator, digits: the
    single digit in the middle is dropped, whatever it is, and the text
    becomes the number [float] reads from the outer digits around one
    period. *)
Theorem middle_digit_dropped (a c : string) (b : ascii) :
  a <> EmptyString -> c <> EmptyString ->
  all_digits a = true -> is_digit b = true -> all_digits c = true ->
  exists x : number,
    py_float (a ++ String period c) = Ok x /\
    convert_swedish_number (CStr (a ++ String comma (String b (String period c))))
      = Ok (CNum x) /\
    convert_swedish_number (CStr (a ++ String period (String b (String comma c))))
      = Ok (CNum x).
Proof.
  intros Hna Hnc Ha Hb Hc.
  pose proof (py_float_decimal a c Hna Hnc Ha Hc) as Hf.
  assert (Hcount : forall s1 s2 x,
             is_digit x = false ->
             count x (a ++ String s1 (String b (String s2 c)))
             = (if Ascii.eqb s1 x then 1 else 0) + (if Ascii.eqb s2 x then 1 else 0)).
  { intros s1 s2 x Hx. rewrite count_append, (count_digits x a Hx Ha). cbn [count].
    rewrite (count_digits x c Hx Hc).
    assert (Eb : Ascii.eqb b x = false).
    { destruct (Ascii.eqb b x) eqn:E; [|reflexivity].
      apply Ascii.eqb_eq in E. subst x. congruence. }
    rewrite Eb. destruct (Ascii.eqb s1 x), (Ascii.eqb s2 x); reflexivity. }
  eexists. split; [exact Hf|]. split; rewrite convert_text.
  - rewrite (re_match_digits a _ comma b Hna Ha eq_refl Hb).
    rewrite (Hcount comma period comma eq_refl), (Hcount comma period period eq_refl).
    cbn [Ascii.eqb Bool.eqb Nat.add Nat.eqb andb comma period].
    change ("," : ascii) with comma. change ("." : ascii) with period.
    rewrite (rewrite_middle a c b comma period) by (auto; assumption).
    unfold float_or. rewrite Hf. reflexivity.
  - rewrite (re_match_digits a _ period b Hna Ha eq_refl Hb).
    rewrite (Hcount period comma comma eq_refl), (Hcount period comma period eq_refl).
    cbn [Ascii.eqb Bool.eqb Nat.add Nat.eqb andb comma period].
    change ("," : ascii) with comma. change ("." : ascii) with period.
    rewrite (rewrite_middle a c b period comma) by (auto; assumption).
    unfold float_or. rewrite Hf. reflexivity.
Qed.

Lemma middle_digit_dropped_witness :
  "173" <> EmptyString /\ "71" <> EmptyString /\
  all_digits "173" = true /\ is_digit "9" = true /\ all_digits "71" = true /\
  exists x : number,
    py_float ("173" ++ String period "71") = Ok x /\
    convert_swedish_number (CStr ("173" ++ String comma (String "9" (String period "71"))))
      = Ok (CNum x) /\
    convert_swedish_number (CStr ("173" ++ String period (String "9" (String comma "71"))))
      = Ok (CNum x).
Proof.
  split; [discriminate|]. split; [discriminate|]. split; [reflexivity|].
  split; [reflexivity|]. split; [reflexivity|].
  apply (middle_digit_dropped "173" "71" "9");
    [discriminate|discriminate|reflexivity|reflexivity|reflexivity].
Defined.

(** ** More on [fix_swedish_numbers] *)


(** X4.  When [fix_swedish_numbers] returns, the frame has the labels,
    the number of rows and the row widths it had, and a second pass over
    the result changes nothing; whatever the dtypes of the columns, those
    of dtype object at the second pass being among those of dtype object
    at the first. *)
Theorem fix_swedish_numbers_settles (infer_string : bool) (object_dtype : string -> bool)
    (df df' : DataFrame) :
  fix_swedish_numbers infer_string object_dtype df = Ok df' ->
  columns df' = columns df /\
  map (@length cell) (rows df') = map (@length cell) (rows df) /\
  fix_swedish_numbers infer_string object_dtype df' = Ok df' /\
  (forall later_dtype : string -> bool,
      (forall c, later_dtype c = true -> object_dtype c = true) ->
      fix_swedish_numbers infer_string later_dtype df' = Ok df').
Proof.
  intros H.
  assert (Hu : is_unique (columns df) = true).
  { unfold fix_swedish_numbers in H. destruct (is_unique (columns df)); [reflexivity|discriminate]. }
  rewrite (fix_swedish_numbers_unique _ _ df Hu) in H. inversion H; subst df'. clear H.
  cbn [columns rows]. split; [reflexivity|]. split; [apply fix_pure_lengths|].
  assert (Hl : forall later_dtype : string -> bool,
             (forall c, later_dtype c = true -> object_dtype c = true) ->
             fix_swedish_numbers infer_string later_dtype
               (mkFrame (columns df)
                  (fix_pure infer_string object_dtype 0 (columns df) (rows df)))
             = Ok (mkFrame (columns df)
                     (fix_pure infer_string object_dtype 0 (columns df) (rows df)))).
  { intros later_dtype Hsub.
    rewrite fix_swedish_numbers_unique by exact Hu. cbn [columns rows].
    rewrite (fix_pure_idempotent _ _ _ _ _ Hsub). reflexivity. }
  split; [apply Hl; intros c Hc; exact Hc|exact Hl].
Qed.

Lemma fix_swedish_numbers_settles_witness :
  fix_swedish_numbers false all_object sample_table =
    Ok (mkFrame ["Sample Name"; "ng/uL"; "Other"]
          [[CStr "S1"; CNum (Finite (Qmake 4141 1000)); CStr "x"]]) /\
  columns (mkFrame ["Sample Name"; "ng/uL"; "Other"]
             [[CStr "S1"; CNum (Finite (Qmake 4141 1000)); CStr "x"]])
  = columns sample_table /\
  map (@length cell)
    (rows (mkFrame ["Sample Name"; "ng/uL"; "Other"]
             [[CStr "S1"; CNum (Finite (Qmake 4141 1000)); CStr "x"]]))
  = map (@length cell) (rows sample_table) /\
  fix_swedish_numbers false all_object
    (mkFrame ["Sample Name"; "ng/uL"; "Other"]
       [[CStr "S1"; CNum (Finite (Qmake 4141 1000)); CStr "x"]])
  = Ok (mkFrame ["Sample Name"; "ng/uL"; "Other"]
          [[CStr "S1"; CNum (Finite (Qmake 4141 1000)); CStr "x"]]) /\
  (forall later_dtype : string -> bool,
      (forall c, later_dtype c = true -> all_object c = true) ->
      fix_swedish_numbers false later_dtype
        (mkFrame ["Sample Name"; "ng/uL"; "Other"]
           [[CStr "S1"; CNum (Finite (Qmake 4141 1000)); CStr "x"]])
      = Ok (mkFrame ["Sample Name"; "ng/uL"; "Other"]
              [[CStr "S1"; CNum (Finite (Qmake 4141 1000)); CStr "x"]])).
Proof.
  split; [vm_compute; reflexivity|].
  apply (fix_swedish_numbers_settles false all_object sample_table).
  vm_compute. reflexivity.
Defined.

(** ** More on [merge_fragmented_tables] *)

Lemma non_empty_cons (t : DataFrame) (ts : list DataFrame) :
  non_empty (t :: ts) = if empty t then non_empty ts else t :: non_empty ts.
Proof. unfold non_empty. simpl. destruct (empty t); reflexivity. Qed.

Lemma frame_eta (t : DataFrame) : t = mkFrame (columns t) (rows t).
Proof. destruct t; reflexivity. Qed.

(** The loop over fragments that all carry the headers of the open table. *)
Lemma for_each_same_headers (cols : list string) (ts : list DataFrame)
    (rs : list (list cell)) :
  (forall t, In t (non_empty ts) -> columns t = cols) ->
  for_each merge_step ts ([], Some (mkFrame cols rs)) =
  Ok ([], Some (mkFrame cols (rs ++ flat_map rows (non_empty ts)))).
Proof.
  revert rs. induction ts as [|t ts IH]; intros rs H.
  - simpl. rewrite app_nil_r. reflexivity.
  - cbn [for_each]. rewrite non_empty_cons in *. destruct (empty t) eqn:He.
    + rewrite (merge_step_skip _ _ He). cbn [bind]. apply IH. exact H.
    + assert (Hc : columns t = cols) by (apply H; left; reflexivity).
      unfold merge_step. rewrite He. cbn [columns]. rewrite Hc, labels_eqb_refl.
      cbn [bind]. rewrite (concat_same_labels (mkFrame cols rs) t) by (symmetry; exact Hc).
      cbn [bind columns rows]. rewrite IH by (intros t' Ht'; apply H; right; exact Ht').
      cbn [flat_map]. rewrite app_assoc. reflexivity.
Qed.

(** X5.  Two or more fragments, at least one of them non-empty, whose
    non-empty ones all carry the same headers, give one table with those
    headers and the rows of the non-empty fragments in order. *)
Theorem same_headers_one_table (tables : list DataFrame) (cols : list string) :
  2 <= length tables ->
  non_empty tables <> [] ->
  (forall t, In t (non_empty tables) -> columns t = cols) ->
  merge_fragmented_tables tables =
  Ok [mkFrame cols (flat_map rows (non_empty tables))].
Proof.
  intros Hlen Hne Hcols. rewrite (merge_long _ Hlen).
  assert (G : forall ts,
             non_empty ts <> [] ->
             (forall t, In t (non_empty ts) -> columns t = cols) ->
             for_each merge_step ts ([], None) =
             Ok ([], Some (mkFrame cols (flat_map rows (non_empty ts))))).
  { induction ts as [|t ts IH]; intros Hn Hc; [contradiction|].
    cbn [for_each]. rewrite non_empty_cons in *. destruct (empty t) eqn:He.
    - rewrite (merge_step_skip _ _ He). cbn [bind]. apply IH; assumption.
    - rewrite (merge_step_open _ He). cbn [bind].
      assert (Ht : columns t = cols) by (apply Hc; left; reflexivity).
      rewrite (frame_eta t), Ht. cbn [rows columns].
      rewrite for_each_same_headers by (intros t' Ht'; apply Hc; right; exact Ht').
      reflexivity. }
  rewrite (G tables Hne Hcols). reflexivity.
Qed.

Lemma same_headers_one_table_witness :
  2 <= length [page1; frame_no_rows; page2] /\
  non_empty [page1; frame_no_rows; page2] <> [] /\
  (forall t, In t (non_empty [page1; frame_no_rows; page2]) -> columns t = ["A"; "B"]) /\
  merge_fragmented_tables [page1; frame_no_rows; page2] =
  Ok [mkFrame ["A"; "B"] (flat_map rows (non_empty [page1; frame_no_rows; page2]))].
Proof.
  assert (H1 : 2 <= length [page1; frame_no_rows; page2]) by (simpl; lia).
  assert (H2 : non_empty [page1; frame_no_rows; page2] <> []) by (vm_compute; discriminate).
  assert (H3 : forall t, In t (non_empty [page1; frame_no_rows; page2]) ->
                         columns t = ["A"; "B"]).
  { intros t [<-|[<-|[]]]; reflexivity. }
  split; [exact H1|]. split; [exact H2|]. split; [exact H3|].
  apply (same_headers_one_table _ _ H1 H2 H3).
Defined.

Lemma merge_step_new_table (merged : list DataFrame) (a b : DataFrame) :
  empty b = false -> starts_new_table a b = true ->
  merge_step (merged, Some a) b = Ok (merged ++ [a], Some b).
Proof.
  intros He H. unfold starts_new_table in H.
  apply andb_true_iff in H. destruct H as [H1 H2].
  apply negb_true_iff in H1, H2.
  unfold merge_step. rewrite He, H1.
  apply empty_false in He. destruct He as [Hc _].
  destruct (columns b) as [|c r]; [contradiction|].
  cbn [index nth_error bind hd] in *. rewrite H2. reflexivity.
Qed.

Lemma for_each_new_tables (ts : list DataFrame) (merged : list DataFrame) (a : DataFrame) :
  each_starts_new_table (a :: non_empty ts) = true ->
  exists st, for_each merge_step ts (merged, Some a) = Ok st /\
             finish st = merged ++ a :: non_empty ts.
Proof.
  revert merged a. induction ts as [|t ts IH]; intros merged a H.
  - eexists. split; reflexivity.
  - cbn [for_each]. rewrite non_empty_cons in *. destruct (empty t) eqn:He.
    + rewrite (merge_step_skip _ _ He). cbn [bind]. apply IH. exact H.
    + cbn [each_starts_new_table] in H. apply andb_true_iff in H. destruct H as [H1 H2].
      rewrite (merge_step_new_table _ _ _ He H1). cbn [bind].
      destruct (IH (merged ++ [a]) t H2) as [st [Hs Hf]].
      exists st. split; [exact Hs|]. rewrite Hf, <- app_assoc. reflexivity.
Qed.

(** X6.  When each non-empty fragment has other headers than the
    non-empty fragment before it and a first header that does not start
    with "Unnamed", nothing is merged: the result is the non-empty
    fragments, each as its own table, in order. *)
Theorem different_headers_kept_apart (tables : list DataFrame) :
  2 <= length tables ->
  each_starts_new_table (non_empty tables) = true ->
  merge_fragmented_tables tables = Ok (non_empty tables).
Proof.
  intros Hlen H. rewrite (merge_long _ Hlen).
  assert (G : forall ts,
             each_starts_new_table (non_empty ts) = true ->
             exists st, for_each merge_step ts ([], None) = Ok st /\
                        finish st = non_empty ts).
  { induction ts as [|t ts IH]; intros Hs.
    - eexists. split; reflexivity.
    - cbn [for_each]. rewrite non_empty_cons in *. destruct (empty t) eqn:He.
      + rewrite (merge_step_skip _ _ He). cbn [bind]. apply IH. exact Hs.
      + rewrite (merge_step_open _ He). cbn [bind].
        apply (for_each_new_tables ts [] t Hs). }
  destruct (G tables H) as [st [Hs Hf]]. rewrite Hs. cbn [bind]. rewrite Hf. reflexivity.
Qed.

Lemma different_headers_kept_apart_witness :
  2 <= length [page1; page3; page2] /\
  each_starts_new_table (non_empty [page1; page3; page2]) = true /\
  merge_fragmented_tables [page1; page3; page2] = Ok (non_empty [page1; page3; page2]).
Proof.
  split; [simpl; lia|]. split; [reflexivity|].
  apply (different_headers_kept_apart [page1; page3; page2]); [simpl; lia|reflexivity].
Defined.

Lemma non_empty_rows_positive (ts : list DataFrame) :
  non_empty ts <> [] -> 0 < total_rows (non_empty ts).
Proof.
  induction ts as [|t ts IH]; [intros H; contradiction|].
  rewrite non_empty_cons. destruct (empty t) eqn:He; [exact IH|].
  intros _. apply empty_false in He. destruct He as [_ Hr].
  simpl. destruct (rows t); [contradiction|simpl; lia].
Qed.

Lemma for_each_count (ts : list DataFrame) (st st' : merge_state) :
  for_each merge_step ts st = Ok st' ->
  length (finish st') <= length (finish st) + length (non_empty ts).
Proof.
  revert st. induction ts as [|t ts IH]; intros st; cbn [for_each].
  - intros H; inversion H. unfold non_empty. simpl. lia.
  - destruct (merge_step st t) as [st1|e] eqn:H1; cbn [bind]; [|discriminate].
    intros H. specialize (IH _ H). rewrite non_empty_cons.
    destruct (merge_step_cases _ _ _ H1) as [[He ->]|[[He [cur [r [Hs [Hc ->]]]]]|[He ->]]];
      rewrite He.
    + exact IH.
    + destruct st as [merged c]. simpl in Hs. subst c.
      unfold finish in *. simpl in *. rewrite length_app in *. simpl in *. lia.
    + unfold finish at 2 in IH. simpl in IH. rewrite length_app in IH. simpl in *. lia.
Qed.

(** X7.  For two or more fragments, the result has at most as many
    tables as there are non-empty fragments, and it has none exactly when
    every fragment is empty. *)
Theorem merge_table_count (tables out : list DataFrame) :
  2 <= length tables ->
  merge_fragmented_tables tables = Ok out ->
  length out <= length (non_empty tables) /\
  (out = [] <-> non_empty tables = []).
Proof.
  intros Hlen. rewrite (merge_long _ Hlen).
  destruct (for_each merge_step tables ([], None)) as [st|x] eqn:H; simpl; [|discriminate].
  intros E; inversion E; subst out. clear E.
  pose proof (for_each_count _ _ _ H) as Hc. simpl in Hc.
  split; [exact Hc|]. split.
  - intros Hnil.
    destruct (non_empty tables) as [|t ts] eqn:En; [reflexivity|].
    assert (Hp : 0 < total_rows (non_empty tables))
      by (apply non_empty_rows_positive; rewrite En; discriminate).
    pose proof (for_each_rows _ _ _ H) as Hr.
    rewrite <- total_rows_finish, Hnil in Hr. unfold current_rows in Hr. simpl in Hr. lia.
  - intros Hnil. rewrite Hnil in Hc. simpl in Hc.
    destruct (finish st); [reflexivity|simpl in Hc; lia].
Qed.

Lemma merge_table_count_witness :
  2 <= length [page1; page2; page3] /\
  merge_fragmented_tables [page1; page2; page3] =
    Ok [mkFrame ["A"; "B"] [[CStr "a1"; CStr "b1"]; [CStr "a2"; CStr "b2"]]; page3] /\
  length [mkFrame ["A"; "B"] [[CStr "a1"; CStr "b1"]; [CStr "a2"; CStr "b2"]]; page3]
    <= length (non_empty [page1; page2; page3]) /\
  ([mkFrame ["A"; "B"] [[CStr "a1"; CStr "b1"]; [CStr "a2"; CStr "b2"]]; page3] = [] <->
   non_empty [page1; page2; page3] = []).
Proof.
  split; [simpl; lia|]. split; [vm_compute; reflexivity|].
  apply (merge_table_count [page1; page2; page3]); [simpl; lia|vm_compute; reflexivity].
Defined.

(** ** Row widths *)

Lemma well_formed_rows (df : DataFrame) :
  well_formed df = true <->
  Forall (fun row => length row = length (columns df)) (rows df).
Proof.
  unfold well_formed. rewrite forallb_forall, Forall_forall.
  split; intros H row Hr; specialize (H row Hr); apply Nat.eqb_eq; exact H.
Qed.

Lemma align_widths (df : DataFrame) (new : list string) (rs : list (list cell)) :
  well_formed df = true -> align df new = Ok rs ->
  Forall (fun row => length row = length new) rs.
Proof.
  intros Hw. unfold align. destruct (labels_eqb new (columns df)) eqn:E.
  - apply labels_eqb_eq in E. subst new. intros H; inversion H; subst rs.
    apply well_formed_rows. exact Hw.
  - destruct (is_unique (columns df)); [|discriminate].
    intros H; inversion H. apply Forall_forall. intros row Hr.
    apply in_map_iff in Hr. destruct Hr as [row0 [<- _]].
    unfold reindex. apply length_map.
Qed.

Lemma concat_well_formed (a b r : DataFrame) :
  concat a b = Ok r -> well_formed a = true -> well_formed b = true ->
  well_formed r = true.
Proof.
  intros H Ha Hb. apply concat_inv in H. destruct H as [ra [rb [Hra [Hrb ->]]]].
  apply well_formed_rows. cbn [columns rows]. apply Forall_app. split.
  - apply (align_widths _ _ _ Ha Hra).
  - apply (align_widths _ _ _ Hb Hrb).
Qed.

Lemma finish_well_formed (st : merge_state) :
  holds_well_formed st -> Forall (fun t => well_formed t = true) (finish st).
Proof.
  destruct st as [merged [cur|]]; unfold holds_well_formed, finish; simpl; intros [H1 H2].
  - apply Forall_app. split; [exact H1|constructor; [exact H2|constructor]].
  - exact H1.
Qed.

Lemma for_each_well_formed (ts : list DataFrame) (st st' : merge_state) :
  Forall (fun t => well_formed t = true) ts ->
  for_each merge_step ts st = Ok st' -> holds_well_formed st -> holds_well_formed st'.
Proof.
  revert st. induction ts as [|t ts IH]; intros st Hts; simpl.
  - intros H; inversion H; subst. auto.
  - inversion Hts as [|? ? Ht Hr]; subst.
    destruct (merge_step st t) as [st1|e] eqn:H1; simpl; [|discriminate].
    intros H Hinv. apply (IH _ Hr H).
    destruct (merge_step_cases _ _ _ H1) as [[He ->]|[[He [cur [r [Hs [Hc ->]]]]]|[He ->]]].
    + exact Hinv.
    + destruct Hinv as [I1 I2]. rewrite Hs in I2. split; simpl; [exact I1|].
      apply (concat_well_formed _ _ _ Hc I2 Ht).
    + split; simpl; [apply finish_well_formed; exact Hinv|exact Ht].
Qed.

(** X8.  If every row of every fragment has one cell per header, so has
    every row of every table returned: merging pads re-laid rows to the
    width of the merged headers. *)
Theorem merge_keeps_full_rows (tables out : list DataFrame) :
  Forall (fun t => well_formed t = true) tables ->
  merge_fragmented_tables tables = Ok out ->
  Forall (fun t => well_formed t = true) out.
Proof.
  intros Hw. unfold merge_fragmented_tables.
  destruct (length tables <=? 1).
  - intros H; inversion H; subst. exact Hw.
  - destruct (for_each merge_step tables ([], None)) as [st|x] eqn:H; simpl; [|discriminate].
    intros E; inversion E. apply finish_well_formed.
    apply (for_each_well_formed _ _ _ Hw H). split; simpl; [constructor|exact I].
Qed.

Lemma merge_keeps_full_rows_witness :
  Forall (fun t => well_formed t = true) [frame_A; frame_unnamed] /\
  merge_fragmented_tables [frame_A; frame_unnamed] =
    Ok [mkFrame ["A"; "Unnamed: 0"] [[CStr "1"; missing]; [missing; CStr "2"]]] /\
  Forall (fun t => well_formed t = true)
    [mkFrame ["A"; "Unnamed: 0"] [[CStr "1"; missing]; [missing; CStr "2"]]].
Proof.
  assert (H : Forall (fun t => well_formed t = true) [frame_A; frame_unnamed])
    by (repeat constructor).
  split; [exact H|]. split; [vm_compute; reflexivity|].
  apply (merge_keeps_full_rows [frame_A; frame_unnamed] _ H). vm_compute. reflexivity.
Defined.

(** ** What the merge can raise *)

Lemma concat_raises (a b : DataFrame) (e : exn) :
  concat a b = Raise e -> e = InvalidIndexError.
Proof.
  unfold concat, align.
  destruct (labels_eqb _ (columns a)); simpl;
    [|destruct (is_unique (columns a)); simpl;
      [|intros H; inversion H; reflexivity]];
    (destruct (labels_eqb _ (columns b)); simpl;
      [discriminate|destruct (is_unique (columns b)); simpl;
        [discriminate|intros H; inversion H; reflexivity]]).
Qed.

Lemma merge_step_raises (st : merge_state) (t : DataFrame) (e : exn) :
  merge_step st t = Raise e -> e = InvalidIndexError.
Proof.
  unfold merge_step. destruct st as [merged [cur|]].
  - destruct (empty t) eqn:He; [discriminate|].
    destruct (labels_eqb (columns t) (columns cur)); simpl.
    + destruct (concat cur t) eqn:Hc; simpl; [discriminate|].
      intros H; inversion H; subst. apply (concat_raises _ _ _ Hc).
    + destruct (index_first t He) as [c ->]. simpl.
      destruct (String.prefix placeholder c); [|discriminate].
      destruct (concat cur t) eqn:Hc; simpl; [discriminate|].
      intros H; inversion H; subst. apply (concat_raises _ _ _ Hc).
  - destruct (empty t); discriminate.
Qed.

Lemma for_each_raises (ts : list DataFrame) (st : merge_state) (e : exn) :
  for_each merge_step ts st = Raise e -> e = InvalidIndexError.
Proof.
  revert st. induction ts as [|t ts IH]; intros st; simpl; [discriminate|].
  destruct (merge_step st t) as [st1|x] eqn:H1; simpl.
  - apply IH.
  - intros H; inversion H; subst. apply (merge_step_raises _ _ _ H1).
Qed.

Lemma repeated_header_or_none (ts : list DataFrame) :
  Forall (fun t => empty t = false -> is_unique (columns t) = true) ts \/
  exists t, In t ts /\ empty t = false /\ is_unique (columns t) = false.
Proof.
  induction ts as [|t ts [IH|[t' [Hin [He Hu]]]]].
  - left. constructor.
  - destruct (empty t) eqn:He.
    + left. constructor; [intros E; congruence|exact IH].
    + destruct (is_unique (columns t)) eqn:Hu.
      * left. constructor; [intros _; exact Hu|exact IH].
      * right. exists t. repeat split; [left; reflexivity|exact He|exact Hu].
  - right. exists t'. repeat split; [right; exact Hin|exact He|exact Hu].
Qed.

(** X9.  The only exception the merge lets out is pandas'
    InvalidIndexError, and only when some non-empty fragment repeats a
    header; reading the first header never fails, since fragments without
    columns are skipped before it is read. *)
Theorem merge_raises_only_on_repeated_header (tables : list DataFrame) (e : exn) :
  merge_fragmented_tables tables = Raise e ->
  e = InvalidIndexError /\
  exists t, In t tables /\ empty t = false /\ is_unique (columns t) = false.
Proof.
  unfold merge_fragmented_tables. destruct (length tables <=? 1); [discriminate|].
  destruct (for_each merge_step tables ([], None)) as [st|x] eqn:H; simpl; [discriminate|].
  intros E; inversion E; subst x. split; [apply (for_each_raises _ _ _ H)|].
  destruct (repeated_header_or_none tables) as [Hall|Hex]; [|exact Hex].
  destruct (for_each_returns tables ([], None) I Hall) as [st Hs]. congruence.
Qed.

Lemma merge_raises_only_on_repeated_header_witness :
  merge_fragmented_tables
    [mkFrame ["A"; "A"] [[CStr "1"; CStr "2"]]; frame_unnamed] = Raise InvalidIndexError /\
  InvalidIndexError = InvalidIndexError /\
  exists t, In t [mkFrame ["A"; "A"] [[CStr "1"; CStr "2"]]; frame_unnamed] /\
            empty t = false /\ is_unique (columns t) = false.
Proof.
  split; [vm_compute; reflexivity|].
  apply (merge_raises_only_on_repeated_header
           [mkFrame ["A"; "A"] [[CStr "1"; CStr "2"]]; frame_unnamed]).
  vm_compute. reflexivity.
Defined.

(** ** More on [extract_summary_data] *)

Lemma resolved_labels_known (table : DataFrame) :
  incl (map fst (resolved_fields table)) ["Sample"; "ng/ul"; "260/280"].
Proof.
  unfold resolved_fields.
  destruct (find_column sample_cols (columns table));
    destruct (find_column ngul_cols (columns table));
    destruct (find_column ratio_cols (columns table)); simpl;
    intros x Hx; simpl in *; tauto.
Qed.

(** X10.  A summary returned has one row per row of the table, in every
    row one cell per column, the source column first, and after it only
    columns labelled "Sample", "ng/ul" and "260/280", none twice;
    whatever the dtypes of the columns. *)
Theorem summary_shape (infer_string : bool) (object_dtype : string -> bool)
    (table : DataFrame) (source_file : string) (r : DataFrame) :
  extract_summary_data infer_string object_dtype table source_file = Ok (Some r) ->
  length (rows r) = length (rows table) /\
  well_formed r = true /\
  (exists labels, columns r = "Source File" :: labels /\
                  labels <> [] /\
                  incl labels ["Sample"; "ng/ul"; "260/280"]) /\
  is_unique (columns r) = true.
Proof.
  intros H. destruct (extract_some_inv _ _ _ _ _ H) as [Hf [_ [_ ->]]].
  unfold summary. cbn [columns rows]. split; [|split; [|split]].
  - rewrite fix_pure_length. apply length_map.
  - apply well_formed_rows. cbn [columns rows]. apply Forall_forall.
    intros row Hr. apply (in_map (@length cell)) in Hr.
    rewrite fix_pure_lengths, map_map in Hr. apply in_map_iff in Hr.
    destruct Hr as [row0 [E _]]. rewrite <- E. cbn [length]. rewrite !length_map.
    reflexivity.
  - exists (map fst (resolved_fields table)). split; [reflexivity|]. split.
    + intros E. apply map_eq_nil in E. contradiction.
    + apply resolved_labels_known.
  - apply resolved_labels_unique.
Qed.

Lemma summary_shape_witness :
  extract_summary_data false all_object sample_table "doc1" =
    Ok (Some (mkFrame ["Source File"; "Sample"; "ng/ul"]
                [[CStr "doc1"; CStr "S1"; CNum (Finite (Qmake 4141 1000))]])) /\
  length (rows (mkFrame ["Source File"; "Sample"; "ng/ul"]
                  [[CStr "doc1"; CStr "S1"; CNum (Finite (Qmake 4141 1000))]]))
  = length (rows sample_table) /\
  well_formed (mkFrame ["Source File"; "Sample"; "ng/ul"]
                 [[CStr "doc1"; CStr "S1"; CNum (Finite (Qmake 4141 1000))]]) = true /\
  (exists labels,
      columns (mkFrame ["Source File"; "Sample"; "ng/ul"]
                 [[CStr "doc1"; CStr "S1"; CNum (Finite (Qmake 4141 1000))]])
      = "Source File" :: labels /\
      labels <> [] /\ incl labels ["Sample"; "ng/ul"; "260/280"]) /\
  is_unique (columns (mkFrame ["Source File"; "Sample"; "ng/ul"]
                        [[CStr "doc1"; CStr "S1"; CNum (Finite (Qmake 4141 1000))]])) = true.
Proof.
  split; [vm_compute; reflexivity|].
  apply (summary_shape false all_object sample_table "doc1"). vm_compute. reflexivity.
Defined.

Lemma none_to_nan_text (s : string) :
  none_to_nan (normalize_cell (CStr s)) = normalize_cell (CStr s).
Proof.
  unfold normalize_cell.
  destruct (convert_text_cases s) as [[x H]|[H|[t [H _]]]]; rewrite H; reflexivity.
Qed.

Lemma column_function_text (infer_string : bool) (cells : list cell) (s : string) :
  column_function infer_string cells (CStr s) = normalize_cell (CStr s).
Proof.
  unfold column_function. destruct (becomes_typed _ _); [apply none_to_nan_text|reflexivity].
Qed.

(** The summary's rows once the source column has been through the pass. *)
Lemma source_column_pass (infer_string : bool) (ed : string -> bool)
    (labels : list string) (source_file : string) (rest : list cell -> list cell)
    (rs : list (list cell)) :
  ed "Source File" = negb infer_string ->
  fix_pure infer_string ed 0 ("Source File" :: labels)
    (map (fun row => CStr source_file :: rest row) rs)
  = fix_pure infer_string ed 1 labels
      (map (fun row =>
              (if infer_string then CStr source_file
               else normalize_cell (CStr source_file)) :: rest row) rs).
Proof.
  intros Hed. cbn [fix_pure]. rewrite Hed. f_equal.
  destruct infer_string; cbn [negb]; [reflexivity|].
  rewrite map_map. apply map_ext. intros row. cbn [update_cell].
  rewrite column_function_text. reflexivity.
Qed.

Lemma extracted_dtype_source (infer_string : bool) (object_dtype : string -> bool)
    (a b c : option string) :
  extracted_dtype infer_string object_dtype a b c "Source File" = negb infer_string.
Proof. reflexivity. Qed.

Lemma hd_nth (row : list cell) : nth 0 row missing = hd missing row.
Proof. destruct row; reflexivity. Qed.

(** X11.  While the source column is of dtype object (pandas before 3,
    [infer_string] off) the source label is put through the number
    conversion with the data: the first cell of every row of a summary
    returned is the converted label, which is the label itself when it
    holds no comma and a number when the label reads as a comma decimal.
    With the string dtype ([infer_string] on) the label is left as it
    is. *)
Theorem source_label_converted (infer_string : bool) (object_dtype : string -> bool)
    (table : DataFrame) (source_file : string) (r : DataFrame) :
  extract_summary_data infer_string object_dtype table source_file = Ok (Some r) ->
  Forall (fun row =>
            hd missing row =
            if infer_string then CStr source_file
            else normalize_cell (CStr source_file)) (rows r) /\
  (count comma source_file = 0 -> normalize_cell (CStr source_file) = CStr source_file).
Proof.
  intros H. destruct (extract_some_inv _ _ _ _ _ H) as [_ [_ [_ ->]]]. split.
  - unfold summary. cbn [rows].
    rewrite source_column_pass by apply extracted_dtype_source.
    match goal with
    | |- Forall _ (fix_pure ?flag ?ed 1 ?labels ?rs) =>
        pose proof (fix_pure_column flag ed labels 1 rs 0) as Hc
    end.
    cbn [Nat.leb] in Hc. apply Forall_forall. intros row Hr.
    rewrite <- hd_nth.
    assert (Hin : In (nth 0 row missing)
                    (column_cells 0 (fix_pure infer_string
                       (extracted_dtype infer_string object_dtype
                          (find_column sample_cols (columns table))
                          (find_column ngul_cols (columns table))
                          (find_column ratio_cols (columns table)))
                       1 (map fst (resolved_fields table))
                       (map (fun row0 =>
                               (if infer_string then CStr source_file
                                else normalize_cell (CStr source_file)) ::
                               map (cell_under table row0) (resolved_fields table))
                          (rows table))))).
    { unfold column_cells at 1. apply in_map_iff. exists row. split; [reflexivity|exact Hr]. }
    rewrite Hc in Hin. unfold column_cells in Hin. rewrite map_map in Hin.
    apply in_map_iff in Hin. destruct Hin as [row0 [E _]]. cbn [nth] in E.
    symmetry. exact E.
  - intros Hc. unfold normalize_cell. rewrite (convert_no_comma _ Hc). reflexivity.
Qed.

Lemma source_label_converted_witness :
  extract_summary_data false all_object sample_table "1,5" =
    Ok (Some (mkFrame ["Source File"; "Sample"; "ng/ul"]
                [[CNum (Finite (Qmake 3 2)); CStr "S1"; CNum (Finite (Qmake 4141 1000))]])) /\
  normalize_cell (CStr "1,5") = CNum (Finite (Qmake 3 2)) /\
  Forall (fun row => hd missing row = if false then CStr "1,5" else normalize_cell (CStr "1,5"))
    (rows (mkFrame ["Source File"; "Sample"; "ng/ul"]
             [[CNum (Finite (Qmake 3 2)); CStr "S1"; CNum (Finite (Qmake 4141 1000))]])) /\
  (count comma "1,5" = 0 -> normalize_cell (CStr "1,5") = CStr "1,5").
Proof.
  split; [vm_compute; reflexivity|]. split; [vm_compute; reflexivity|].
  apply (source_label_converted false all_object sample_table "1,5").
  vm_compute. reflexivity.
Defined.

Lemma positions_from_present (k : nat) (c : string) (l : list string) :
  In c l -> positions_from k c l <> [].
Proof.
  revert k. induction l as [|x l IH]; intros k; simpl; [intros []|].
  intros [->|H].
  - rewrite String.eqb_refl. discriminate.
  - destruct (String.eqb x c); [discriminate|apply IH; exact H].
Qed.

Lemma resolved_headers_present (table : DataFrame) (f : string * string) :
  In f (resolved_fields table) -> In (snd f) (columns table).
Proof.
  unfold resolved_fields, pick. intros H.
  repeat (apply in_app_or in H; destruct H as [H|H]);
    match type of H with
    | In _ (match find_column ?v ?c with _ => _ end) =>
        destruct (find_column v c) as [h|] eqn:E; [|contradiction];
        destruct H as [<-|[]]; simpl; apply (find_column_In _ _ _ E)
    end.
Qed.

Lemma copy_fields_raises (table : DataFrame) (fs : list (string * string))
    (ex : DataFrame) (e : exn) :
  (forall f, In f fs -> In (snd f) (columns table)) ->
  copy_fields table fs ex = Raise e ->
  e = ValueError /\
  exists f, In f fs /\ 2 <= length (positions (snd f) (columns table)).
Proof.
  revert ex. induction fs as [|f fs IH]; intros ex Hin; simpl; [discriminate|].
  unfold select.
  pose proof (positions_from_present 0 _ _ (Hin f (or_introl eq_refl))) as Hp.
  fold (positions (snd f) (columns table)) in Hp.
  destruct (positions (snd f) (columns table)) as [|i [|j l]] eqn:E.
  - contradiction.
  - simpl. intros H.
    destruct (IH _ (fun g Hg => Hin g (or_intror Hg)) H) as [He [g [Hg Hl]]].
    split; [exact He|]. exists g. split; [right; exact Hg|exact Hl].
  - simpl. intros H. inversion H. split; [reflexivity|].
    exists f. split; [left; reflexivity|]. rewrite E. simpl. lia.
Qed.

(** X12.  The only exception [extract_summary_data] lets out is the
    ValueError of assigning several columns to one, and only when a header
    it found labels two or more columns of the table.  No header found is
    missing from the table, and the second conversion pass never fails,
    the summary's own labels being distinct. *)
Theorem extract_raises_only_on_repeated_header
    (infer_string : bool) (object_dtype : string -> bool)
    (table : DataFrame) (source_file : string) (e : exn) :
  extract_summary_data infer_string object_dtype table source_file = Raise e ->
  e = ValueError /\
  exists f, In f (resolved_fields table) /\
            2 <= length (positions (snd f) (columns table)).
Proof.
  rewrite extract_by_fields.
  destruct (copy_fields table (resolved_fields table) new_frame) as [ex|x] eqn:H.
  - pose proof (copy_fields_inv _ _ _ _ H) as Hs.
    change new_frame with (project table []) in H.
    rewrite (copy_fields_project _ _ _ Hs) in H. inversion H; subst ex. cbn [app bind].
    destruct (negb (empty (project table (resolved_fields table)))).
    + rewrite fix_swedish_numbers_unique
        by (cbn [insert_first columns project]; apply resolved_labels_unique).
      discriminate.
    + discriminate.
  - cbn [bind]. intros E; inversion E; subst x.
    apply (copy_fields_raises _ _ _ _ (resolved_headers_present table) H).
Qed.

Lemma extract_raises_only_on_repeated_header_witness :
  extract_summary_data false all_object
    (mkFrame ["Sample"; "Sample"] [[CStr "a"; CStr "b"]]) "doc1"
    = Raise ValueError /\
  ValueError = ValueError /\
  exists f, In f (resolved_fields (mkFrame ["Sample"; "Sample"] [[CStr "a"; CStr "b"]])) /\
            2 <= length (positions (snd f)
                           (columns (mkFrame ["Sample"; "Sample"] [[CStr "a"; CStr "b"]]))).
Proof.
  split; [vm_compute; reflexivity|].
  apply (extract_raises_only_on_repeated_header false all_object
           (mkFrame ["Sample"; "Sample"] [[CStr "a"; CStr "b"]]) "doc1").
  vm_compute. reflexivity.
Defined.

Lemma append_assoc (a b c : string) : ((a ++ b) ++ c = a ++ (b ++ c))%string.
Proof. induction a as [|x a IH]; simpl; [reflexivity|rewrite IH; reflexivity]. Qed.

Lemma contains_shorter (p q h : string) :
  contains (p ++ q) h = true -> contains p h = true.
Proof.
  rewrite !contains_infix. intros [a [b H]]. exists a, (q ++ b)%string.
  rewrite H, append_assoc. reflexivity.
Qed.

(** X13.  For the sample field the variants "Sample Name" and "sample
    name" decide nothing: a header matches the list exactly when it has
    "Sample" or "sample" inside it. *)
Theorem sample_variants_two_decide (h : string) :
  matches sample_cols h = contains "Sample" h || contains "sample" h.
Proof.
  unfold matches, sample_cols. cbn [existsb].
  pose proof (contains_shorter "Sample" " Name" h) as H1.
  pose proof (contains_shorter "sample" " name" h) as H2.
  cbn [append] in H1, H2.
  destruct (contains "Sample" h), (contains "sample" h); cbn [orb]; try reflexivity.
  destruct (contains "Sample Name" h); [specialize (H1 eq_refl); discriminate|].
  destruct (contains "sample name" h); [specialize (H2 eq_refl); discriminate|].
  reflexivity.
Qed.

Lemma extracted_dtype_field (infer_string : bool) (object_dtype : string -> bool)
    (table : DataFrame) (f : string * string) :
  In f (resolved_fields table) ->
  extracted_dtype infer_string object_dtype
    (find_column sample_cols (columns table))
    (find_column ngul_cols (columns table))
    (find_column ratio_cols (columns table)) (fst f) = object_dtype (snd f).
Proof.
  unfold resolved_fields, pick.
  destruct (find_column sample_cols (columns table)) as [a|];
    destruct (find_column ngul_cols (columns table)) as [b|];
    destruct (find_column ratio_cols (columns table)) as [c|];
    cbn [app In]; intros H;
    repeat (destruct H as [<-|H]); try contradiction; reflexivity.
Qed.

Lemma first_position_unique (cols : list string) (c : string) :
  is_unique cols = true -> In c cols ->
  nth_error cols (first_position c cols) = Some c.
Proof.
  intros Hu Hin. destruct (In_nth_error _ _ Hin) as [i Hi].
  unfold first_position, positions.
  rewrite (positions_from_unique 0 i c cols Hu Hi). exact Hi.
Qed.

Lemma column_cells_behind (i : nat) (v : list cell -> cell)
    (rest : list cell -> list cell) (rs : list (list cell)) :
  column_cells (S i) (map (fun row => v row :: rest row) rs) =
  map (fun row => nth i (rest row) missing) rs.
Proof. unfold column_cells. rewrite map_map. reflexivity. Qed.

(** X14.  On a table that [fix_swedish_numbers] returned, the second
    conversion pass inside [extract_summary_data] changes no data cell:
    the summary holds, after the source label (converted while the source
    column is of dtype object, as it stands with the string dtype), the
    cells of that table as they stand.  The columns of dtype object after
    the first pass are among those of dtype object before it. *)
Theorem summary_of_fixed_table (infer_string : bool)
    (object_dtype fixed_dtype : string -> bool)
    (table fixed : DataFrame) (source_file : string) (r : DataFrame) :
  (forall c, fixed_dtype c = true -> object_dtype c = true) ->
  fix_swedish_numbers infer_string object_dtype table = Ok fixed ->
  extract_summary_data infer_string fixed_dtype fixed source_file = Ok (Some r) ->
  rows r =
  map (fun row =>
         (if infer_string then CStr source_file
          else normalize_cell (CStr source_file)) ::
         map (cell_under fixed row) (resolved_fields fixed))
    (rows fixed).
Proof.
  intros Hsub Hfix H. destruct (extract_some_inv _ _ _ _ _ H) as [_ [_ [_ ->]]].
  assert (Hu : is_unique (columns table) = true).
  { unfold fix_swedish_numbers in Hfix.
    destruct (is_unique (columns table)); [reflexivity|discriminate]. }
  rewrite (fix_swedish_numbers_unique _ _ table Hu) in Hfix.
  injection Hfix as E.
  unfold summary. cbn [rows].
  rewrite source_column_pass by apply extracted_dtype_source.
  apply fix_pure_settled. intros i col Hi Hed.
  rewrite nth_error_map in Hi.
  destruct (nth_error (resolved_fields fixed) i) as [f|] eqn:Hf; [|discriminate].
  cbn [option_map] in Hi. injection Hi as <-.
  pose proof (nth_error_In _ _ Hf) as Hin.
  rewrite (extracted_dtype_field _ _ _ _ Hin) in Hed.
  apply Hsub in Hed.
  pose proof (resolved_headers_present _ _ Hin) as Hc.
  cbn [Nat.add]. rewrite column_cells_behind.
  assert (Hcol : map (fun row => nth i (map (cell_under fixed row) (resolved_fields fixed))
                                   missing) (rows fixed)
                 = column_cells (first_position (snd f) (columns fixed)) (rows fixed)).
  { unfold column_cells. apply map_ext. intros row.
    apply nth_error_nth. rewrite nth_error_map, Hf. reflexivity. }
  rewrite Hcol. rewrite <- E in *. cbn [columns rows] in *.
  rewrite fix_pure_column. cbn [Nat.leb]. rewrite Nat.sub_0_r.
  rewrite (first_position_unique _ _ Hu Hc), Hed.
  apply column_function_settles.
Qed.

Lemma summary_of_fixed_table_witness :
  (forall c, all_object c = true -> all_object c = true) /\
  fix_swedish_numbers false all_object sample_table =
    Ok (mkFrame ["Sample Name"; "ng/uL"; "Other"]
          [[CStr "S1"; CNum (Finite (Qmake 4141 1000)); CStr "x"]]) /\
  extract_summary_data false all_object
    (mkFrame ["Sample Name"; "ng/uL"; "Other"]
       [[CStr "S1"; CNum (Finite (Qmake 4141 1000)); CStr "x"]]) "doc1" =
    Ok (Some (mkFrame ["Source File"; "Sample"; "ng/ul"]
                [[CStr "doc1"; CStr "S1"; CNum (Finite (Qmake 4141 1000))]])) /\
  rows (mkFrame ["Source File"; "Sample"; "ng/ul"]
          [[CStr "doc1"; CStr "S1"; CNum (Finite (Qmake 4141 1000))]]) =
  map (fun row =>
         (if false then CStr "doc1" else normalize_cell (CStr "doc1")) ::
         map (cell_under
                (mkFrame ["Sample Name"; "ng/uL"; "Other"]
                   [[CStr "S1"; CNum (Finite (Qmake 4141 1000)); CStr "x"]]) row)
           (resolved_fields
              (mkFrame ["Sample Name"; "ng/uL"; "Other"]
                 [[CStr "S1"; CNum (Finite (Qmake 4141 1000)); CStr "x"]])))
    (rows (mkFrame ["Sample Name"; "ng/uL"; "Other"]
             [[CStr "S1"; CNum (Finite (Qmake 4141 1000)); CStr "x"]])).
Proof.
  split; [intros c Hc; exact Hc|].
  split; [vm_compute; reflexivity|].
  split; [vm_compute; reflexivity|].
  apply (summary_of_fixed_table false all_object all_object sample_table
           (mkFrame ["Sample Name"; "ng/uL"; "Other"]
              [[CStr "S1"; CNum (Finite (Qmake 4141 1000)); CStr "x"]]) "doc1").
  - intros c Hc. exact Hc.
  - vm_compute. reflexivity.
  - vm_compute. reflexivity.
Defined.

(** ** Paths and names *)

Example str_replace_examples :
  str_replace ".pdf" ".xlsx" "a.pdf.pdf" = "a.xlsx.xlsx" /\
  str_replace "aa" "b" "aaa" = "ba" /\
  str_replace "" "-" "abc" = "-a-b-c-" /\
  basename "/tmp/x/report.pdf" = "report.pdf" /\
  basename "dir/" = "" /\
  splitext "archive.tar.gz" = ("archive.tar", ".gz") /\
  splitext ".bashrc" = (".bashrc", "") /\
  splitext "a.b/c" = ("a.b/c", "") /\
  sheet_name [page1; page2] 1 = "Table_2".
Proof. repeat split. Qed.

(** The one-character [replace] is [str_replace] on one-character texts. *)
Lemma str_replace_char (a b : ascii) (s : string) :
  str_replace (String a EmptyString) (String b EmptyString) s = replace a b s.
Proof.
  unfold str_replace. induction s as [|c r IH]; [reflexivity|].
  cbn [replace_from replace String.prefix String.length Nat.sub].
  destruct (ascii_dec a c) as [->|Hn].
  - rewrite Ascii.eqb_refl.
    assert (E : String.prefix EmptyString r = true) by (destruct r; reflexivity).
    rewrite E. cbn [append]. rewrite IH. reflexivity.
  - assert (E : Ascii.eqb c a = false).
    { destruct (Ascii.eqb c a) eqn:E; [|reflexivity]. apply Ascii.eqb_eq in E. congruence. }
    rewrite E, IH. reflexivity.
Qed.

Lemma replace_from_absent (old new s : string) :
  contains old s = false -> replace_from 0 old new s = s.
Proof.
  induction s as [|c r IH]; [reflexivity|].
  cbn [contains replace_from]. intros H. apply orb_false_iff in H. destruct H as [H1 H2].
  rewrite H1, (IH H2). reflexivity.
Qed.

Lemma prefix_other_first (o c : ascii) (old r : string) :
  o <> c -> String.prefix (String o old) (String c r) = false.
Proof. intros H. simpl. destruct (ascii_dec o c); [contradiction|reflexivity]. Qed.

(** A stretch of text without the first character of [old] is copied. *)
Lemma replace_from_copy (o : ascii) (old new a t : string) :
  count o a = 0 ->
  replace_from 0 (String o old) new (a ++ t) = (a ++ replace_from 0 (String o old) new t)%string.
Proof.
  induction a as [|c a IH]; intros H; [reflexivity|].
  simpl in H. destruct (Ascii.eqb c o) eqn:E; [discriminate|].
  cbn [append replace_from].
  rewrite prefix_other_first
    by (intros ->; rewrite Ascii.eqb_refl in E; discriminate).
  rewrite (IH H). reflexivity.
Qed.

Lemma replace_from_copy_period (old new a t : string) :
  count period a = 0 ->
  replace_from 0 (String "." old) new (a ++ t)
  = (a ++ replace_from 0 (String "." old) new t)%string.
Proof. exact (replace_from_copy period old new a t). Qed.

Lemma split_append_any (sep : ascii) (a r : string) :
  split sep (a ++ String sep r) = split sep a ++ split sep r.
Proof.
  induction a as [|x a IH]; cbn [append split].
  - rewrite Ascii.eqb_refl. reflexivity.
  - rewrite IH. destruct (Ascii.eqb x sep); [reflexivity|].
    pose proof (split_not_nil sep a) as Hn.
    destruct (split sep a); [contradiction|reflexivity].
Qed.

Lemma last_append {A : Type} (l l' : list A) (d : A) :
  l' <> [] -> last (l ++ l') d = last l' d.
Proof.
  intros H. induction l as [|x l IH]; [reflexivity|].
  change (last (x :: (l ++ l')) d = last l' d).
  assert (Hne : l ++ l' <> []) by (intros E; apply app_eq_nil in E; tauto).
  destruct (l ++ l') as [|y r]; [contradiction|exact IH].
Qed.

Lemma basename_after_slash (dir name : string) :
  count slash name = 0 -> basename (dir ++ String slash name) = name.
Proof.
  intros H. unfold basename.
  rewrite split_append_any, last_append by apply split_not_nil.
  rewrite (split_none slash name H). reflexivity.
Qed.

Lemma rfind_from_absent (i : nat) (c : ascii) (s : string) (found : option nat) :
  count c s = 0 -> rfind_from i c s found = found.
Proof.
  revert i found. induction s as [|x r IH]; intros i found H; [reflexivity|].
  simpl in *. destruct (Ascii.eqb x c); [discriminate|]. apply IH. exact H.
Qed.

Lemma rfind_from_append (i : nat) (c : ascii) (a t : string) (found : option nat) :
  rfind_from i c (a ++ t) found
  = rfind_from (i + String.length a) c t (rfind_from i c a found).
Proof.
  revert i found. induction a as [|x a IH]; intros i found; simpl.
  - rewrite Nat.add_0_r. reflexivity.
  - rewrite IH. f_equal. lia.
Qed.

Lemma substring_front (a t : string) : substring 0 (String.length a) (a ++ t) = a.
Proof.
  induction a as [|x a IH]; simpl.
  - destruct t; reflexivity.
  - rewrite IH. reflexivity.
Qed.

Lemma only_absent (c : ascii) (s : string) :
  s <> EmptyString -> count c s = 0 -> only c s = false.
Proof.
  destruct s as [|x r]; [contradiction|]. intros _. simpl.
  destruct (Ascii.eqb x c); [discriminate|reflexivity].
Qed.

(** X15.  For the path of a file named [stem.ext] in any directory, where
    stem and extension hold no period and no slash and the stem is not
    empty, the source label is the stem; for a name without a period it is
    the whole name. *)
Theorem source_name_is_stem (dir stem ext : string) :
  stem <> EmptyString ->
  count period stem = 0 -> count slash stem = 0 ->
  count period ext = 0 -> count slash ext = 0 ->
  source_name (dir ++ String slash (stem ++ String period ext)) = stem /\
  source_name (dir ++ String slash stem) = stem.
Proof.
  intros Hn Hp Hs Hep Hes. unfold source_name. split.
  - rewrite basename_after_slash.
    2:{ rewrite count_append. cbn [count]. change (Ascii.eqb period slash) with false.
        cbv iota. rewrite Hs, Hes. reflexivity. }
    unfold splitext, rfind.
    rewrite !rfind_from_append. cbn [rfind_from]. rewrite Ascii.eqb_refl.
    change (Ascii.eqb period slash) with false. cbv iota.
    rewrite (rfind_from_absent _ period ext _ Hep).
    rewrite (rfind_from_absent _ slash stem None Hs).
    rewrite (rfind_from_absent _ slash ext _ Hes).
    cbn [Nat.add Nat.leb fst]. rewrite Nat.sub_0_r, !substring_front.
    rewrite (only_absent period stem Hn Hp). reflexivity.
  - rewrite (basename_after_slash dir stem Hs).
    unfold splitext, rfind. rewrite (rfind_from_absent _ period stem None Hp). reflexivity.
Qed.

Lemma source_name_is_stem_witness :
  "1,5" <> EmptyString /\
  count period "1,5" = 0 /\ count slash "1,5" = 0 /\
  count period "pdf" = 0 /\ count slash "pdf" = 0 /\
  source_name "/tmp/tmp8k2x/1,5.pdf" = "1,5" /\
  source_name "/tmp/tmp8k2x/1,5" = "1,5".
Proof.
  split; [discriminate|]. do 4 (split; [reflexivity|]).
  apply (source_name_is_stem "/tmp/tmp8k2x" "1,5" "pdf"); [discriminate|reflexivity..].
Defined.

Lemma replace_tail_pdf (stem : string) :
  count period stem = 0 ->
  replace_from 0 ".pdf" ".xlsx" (stem ++ ".pdf") = (stem ++ ".xlsx")%string.
Proof. intros H. rewrite (replace_from_copy_period "pdf" ".xlsx" stem ".pdf" H). reflexivity. Qed.

(** X16.  The workbook of [dir/stem.pdf], the stem holding no period and
    no slash, is named [stem.xlsx].  A file whose name does not hold
    ".pdf" as written, in lower case, keeps its name: the workbook is
    given the name of the PDF itself. *)
Theorem excel_filename_cases (dir stem name : string) :
  count period stem = 0 -> count slash stem = 0 ->
  count slash name = 0 -> contains ".pdf" name = false ->
  excel_filename (dir ++ String slash (stem ++ ".pdf")) = (stem ++ ".xlsx")%string /\
  excel_filename (dir ++ String slash name) = name.
Proof.
  intros Hp Hs Hns Hnc. unfold excel_filename, str_replace. split.
  - rewrite basename_after_slash.
    + apply replace_tail_pdf. exact Hp.
    + rewrite count_append, Hs. reflexivity.
  - rewrite (basename_after_slash dir name Hns). apply replace_from_absent. exact Hnc.
Qed.

Lemma excel_filename_cases_witness :
  count period "report" = 0 /\ count slash "report" = 0 /\
  count slash "REPORT.PDF" = 0 /\ contains ".pdf" "REPORT.PDF" = false /\
  excel_filename "/tmp/t/report.pdf" = "report.xlsx" /\
  excel_filename "/tmp/t/REPORT.PDF" = "REPORT.PDF".
Proof.
  do 4 (split; [reflexivity|]).
  apply (excel_filename_cases "/tmp/t" "report" "REPORT.PDF"); reflexivity.
Defined.

(** X17.  The PDF path for an XPS path that holds no period before its
    ending is the path with ".xps" or ".XPS" turned into ".pdf".  A path
    that holds neither ending as written, such as one ending in ".Xps",
    is left as it is: the PDF path is the XPS path. *)
Theorem pdf_path_of_xps_cases (pre path : string) :
  count period pre = 0 ->
  contains ".xps" path = false -> contains ".XPS" path = false ->
  pdf_path_of_xps (pre ++ ".xps") = (pre ++ ".pdf")%string /\
  pdf_path_of_xps (pre ++ ".XPS") = (pre ++ ".pdf")%string /\
  pdf_path_of_xps path = path.
Proof.
  intros Hp H1 H2. unfold pdf_path_of_xps, str_replace. repeat split.
  - rewrite (replace_from_copy_period "xps" ".pdf" pre ".xps" Hp).
    change (replace_from 0 ".xps" ".pdf" ".xps") with ".pdf".
    rewrite (replace_from_copy_period "XPS" ".pdf" pre ".pdf" Hp). reflexivity.
  - rewrite (replace_from_copy_period "xps" ".pdf" pre ".XPS" Hp).
    change (replace_from 0 ".xps" ".pdf" ".XPS") with ".XPS".
    rewrite (replace_from_copy_period "XPS" ".pdf" pre ".XPS" Hp). reflexivity.
  - rewrite (replace_from_absent ".xps" ".pdf" path H1).
    apply replace_from_absent. exact H2.
Qed.

Lemma pdf_path_of_xps_cases_witness :
  count period "/tmp/t/scan" = 0 /\
  contains ".xps" "/tmp/t/scan.Xps" = false /\
  contains ".XPS" "/tmp/t/scan.Xps" = false /\
  pdf_path_of_xps "/tmp/t/scan.xps" = "/tmp/t/scan.pdf" /\
  pdf_path_of_xps "/tmp/t/scan.XPS" = "/tmp/t/scan.pdf" /\
  pdf_path_of_xps "/tmp/t/scan.Xps" = "/tmp/t/scan.Xps".
Proof.
  do 3 (split; [reflexivity|]).
  apply (pdf_path_of_xps_cases "/tmp/t/scan" "/tmp/t/scan.Xps"); reflexivity.
Defined.

(** X18.  An XPS file and a PDF file with the same stem in the same
    directory get the same workbook name, [stem.xlsx]. *)
Theorem xps_and_pdf_share_workbook_name (dir stem : string) :
  count period dir = 0 ->
  count period stem = 0 -> count slash stem = 0 ->
  excel_filename (pdf_path_of_xps (dir ++ String slash (stem ++ ".xps")))
  = excel_filename (dir ++ String slash (stem ++ ".pdf")) /\
  excel_filename (dir ++ String slash (stem ++ ".pdf")) = (stem ++ ".xlsx")%string.
Proof.
  intros Hd Hp Hs.
  assert (Hpre : count period (dir ++ String slash stem) = 0).
  { rewrite count_append. cbn [count]. change (Ascii.eqb slash period) with false.
    cbv iota. rewrite Hd, Hp. reflexivity. }
  assert (E : pdf_path_of_xps (dir ++ String slash (stem ++ ".xps"))
              = (dir ++ String slash (stem ++ ".pdf"))%string).
  { assert (A : forall x, (dir ++ String slash (stem ++ x))%string
                          = ((dir ++ String slash stem) ++ x)%string)
      by (intros x; rewrite append_assoc; reflexivity).
    rewrite !A. unfold pdf_path_of_xps, str_replace.
    rewrite (replace_from_copy_period "xps" ".pdf" _ ".xps" Hpre).
    change (replace_from 0 ".xps" ".pdf" ".xps") with ".pdf".
    rewrite (replace_from_copy_period "XPS" ".pdf" _ ".pdf" Hpre). reflexivity. }
  rewrite E. split; [reflexivity|].
  unfold excel_filename, str_replace. rewrite basename_after_slash.
  - apply replace_tail_pdf. exact Hp.
  - rewrite count_append, Hs. reflexivity.
Qed.

Lemma xps_and_pdf_share_workbook_name_witness :
  count period "/tmp/t" = 0 /\ count period "run7" = 0 /\ count slash "run7" = 0 /\
  excel_filename (pdf_path_of_xps "/tmp/t/run7.xps") = excel_filename "/tmp/t/run7.pdf" /\
  excel_filename "/tmp/t/run7.pdf" = "run7.xlsx".
Proof.
  do 3 (split; [reflexivity|]).
  apply (xps_and_pdf_share_workbook_name "/tmp/t" "run7"); reflexivity.
Defined.

Lemma append_cancel (a x y : string) : (a ++ x = a ++ y)%string -> x = y.
Proof. induction a as [|c a IH]; simpl; intros H; [exact H|inversion H; auto]. Qed.

Lemma str_of_nat_injective (n m : nat) : str_of_nat n = str_of_nat m -> n = m.
Proof.
  unfold str_of_nat. intros H. apply Unsigned.to_uint_inj.
  pose proof (NilEmpty.usu (Nat.to_uint n)) as Hn.
  pose proof (NilEmpty.usu (Nat.to_uint m)) as Hm.
  rewrite H in Hn. rewrite Hn in Hm. inversion Hm. reflexivity.
Qed.

(** X19.  With more than one table, sheets at different positions get
    different names; with one table the sheet is "Sheet1". *)
Theorem sheet_names_distinct (tables : list DataFrame) (i j : nat) :
  2 <= length tables ->
  sheet_name tables i = sheet_name tables j -> i = j.
Proof.
  intros Hlen. unfold sheet_name.
  assert (E : (1 <? length tables) = true) by (apply Nat.ltb_lt; lia).
  rewrite E. intros H. apply append_cancel, str_of_nat_injective in H. lia.
Qed.

Lemma sheet_names_distinct_witness :
  2 <= length [page1; page3] /\
  sheet_name [page1; page3] 0 = "Table_1" /\
  sheet_name [page1; page3] 1 = "Table_2" /\
  (sheet_name [page1; page3] 0 = sheet_name [page1; page3] 0 -> 0 = 0).
Proof.
  split; [simpl; lia|]. split; [reflexivity|]. split; [reflexivity|].
  apply (sheet_names_distinct [page1; page3] 0 0). simpl; lia.
Defined.

(** ** Cells of a merged table *)

(** A row of [df] found again, under its labels, among the aligned rows. *)
Lemma align_keeps_cell (df : DataFrame) (new : list string) (rs : list (list cell))
    (k i j : nat) (row : list cell) (c : string) :
  is_unique (columns df) = true ->
  align df new = Ok rs ->
  nth_error (rows df) k = Some row ->
  nth_error (columns df) i = Some c -> nth_error new j = Some c ->
  exists row', nth_error rs k = Some row' /\ nth j row' missing = nth i row missing.
Proof.
  intros Hu Ha Hk Hi Hj. unfold align in Ha.
  destruct (labels_eqb new (columns df)) eqn:E.
  - apply labels_eqb_eq in E. subst new. inversion Ha; subst rs.
    exists row. split; [exact Hk|].
    rewrite (unique_position _ _ _ _ Hu Hi Hj). reflexivity.
  - rewrite Hu in Ha. inversion Ha; subst rs.
    exists (reindex (columns df) new row). split.
    + rewrite nth_error_map, Hk. reflexivity.
    + apply (reindex_keeps_cell _ _ _ _ _ _ Hu Hi Hj).
Qed.

Lemma merged_pair (a b r : DataFrame) :
  empty a = false -> empty b = false ->
  merge_fragmented_tables [a; b] = Ok [r] -> concat a b = Ok r.
Proof.
  intros Ha Hb. unfold merge_fragmented_tables. cbn [length Nat.leb for_each].
  rewrite (merge_step_open _ Ha). cbn [bind].
  destruct (merge_step ([], Some a) b) as [st|e] eqn:H; cbn [bind]; [|discriminate].
  destruct (merge_step_cases _ _ _ H) as [[He _]|[[_ [cur [x [Hs [Hc ->]]]]]|[_ ->]]].
  - congruence.
  - simpl in Hs. inversion Hs; subst cur. unfold finish. simpl.
    intros E; inversion E; subst x. exact Hc.
  - unfold finish. simpl. discriminate.
Qed.

(** X20.  When two non-empty fragments without repeated headers are
    merged into one table, every cell stays under its header: a cell of
    row [k] of the first fragment is in row [k] of the table, a cell of row
    [k] of the second fragment is in the row that many places after the
    first fragment's rows, each in the column that carries its header. *)
Theorem merged_cells_follow_headers
    (a b r : DataFrame) (k i j : nat) (row : list cell) (c : string) :
  empty a = false -> empty b = false ->
  is_unique (columns a) = true -> is_unique (columns b) = true ->
  merge_fragmented_tables [a; b] = Ok [r] ->
  nth_error (columns r) j = Some c ->
  (nth_error (rows a) k = Some row -> nth_error (columns a) i = Some c ->
   exists row', nth_error (rows r) k = Some row' /\
                nth j row' missing = nth i row missing) /\
  (nth_error (rows b) k = Some row -> nth_error (columns b) i = Some c ->
   exists row', nth_error (rows r) (length (rows a) + k) = Some row' /\
                nth j row' missing = nth i row missing).
Proof.
  intros Ha Hb Ua Ub Hm Hj.
  pose proof (merged_pair _ _ _ Ha Hb Hm) as Hc.
  destruct (concat_inv _ _ _ Hc) as [ra [rb [Hra [Hrb ->]]]].
  cbn [columns rows] in *. split; intros Hk Hi.
  - destruct (align_keeps_cell _ _ _ _ _ _ _ _ Ua Hra Hk Hi Hj) as [row' [H1 H2]].
    exists row'. split; [|exact H2].
    rewrite nth_error_app1; [exact H1|]. apply nth_error_Some. rewrite H1. discriminate.
  - destruct (align_keeps_cell _ _ _ _ _ _ _ _ Ub Hrb Hk Hi Hj) as [row' [H1 H2]].
    exists row'. split; [|exact H2].
    rewrite nth_error_app2 by (rewrite (align_length _ _ _ Hra); lia).
    rewrite (align_length _ _ _ Hra).
    replace (length (rows a) + k - length (rows a)) with k by lia. exact H1.
Qed.

Lemma merged_cells_follow_headers_witness :
  empty frame_A = false /\ empty frame_unnamed = false /\
  is_unique (columns frame_A) = true /\ is_unique (columns frame_unnamed) = true /\
  merge_fragmented_tables [frame_A; frame_unnamed] =
    Ok [mkFrame ["A"; "Unnamed: 0"] [[CStr "1"; missing]; [missing; CStr "2"]]] /\
  nth_error ["A"; "Unnamed: 0"] 1 = Some "Unnamed: 0" /\
  nth_error (rows frame_unnamed) 0 = Some [CStr "2"] /\
  nth_error (columns frame_unnamed) 0 = Some "Unnamed: 0" /\
  exists row',
    nth_error [[CStr "1"; missing]; [missing; CStr "2"]] (length (rows frame_A) + 0)
      = Some row' /\
    nth 1 row' missing = nth 0 [CStr "2"] missing.
Proof.
  do 8 (split; [reflexivity|]).
  apply (merged_cells_follow_headers frame_A frame_unnamed
           (mkFrame ["A"; "Unnamed: 0"] [[CStr "1"; missing]; [missing; CStr "2"]])
           0 0 1 [CStr "2"] "Unnamed: 0"); reflexivity.
Defined.
